(** * Client side of the SSH transport bring-up: [client.c]

    A shallow embedding of [src/libssh/client.c] and the properties of it
    that the specification states.  The file has five parts:

    - the C library functions the file calls ([strncmp], [strstr],
      [strtol], [strdup], [snprintf]) on lists of characters;
    - the session structure, the memory it owns and the collaborators it
      calls (socket, buffers, packet layer, Diffie-Hellman and key
      exchange), which live in other files of the library;
    - the functions of [client.c], one definition per C function;
    - a test double of the collaborators and a few sessions, for the runs
      on concrete inputs;
    - the properties, first for every choice of the collaborators, then on
      concrete runs. *)

From Stdlib Require Import ZArith Ascii String List Lia.
From stdpp Require Import base option list gmap.

Local Open Scope Z_scope.

(** ** Characters and C strings

    A [char] is an [ascii]; a buffer is the list of its bytes.  A C string
    is the list of the characters that precede its terminating NUL. *)

Definition NUL : ascii := "000"%char.
Definition CR : ascii := "013"%char.
Definition LF : ascii := "010"%char.

Definition chars (s : string) : list ascii := list_ascii_of_string s.

(** The C string that starts at the beginning of a buffer: the bytes before
    the first NUL. *)
Fixpoint c_str (buffer : list ascii) : list ascii :=
  match buffer with
  | [] => []
  | c :: rest => if Ascii.eqb c NUL then [] else c :: c_str rest
  end.

(** What [callback_receive_banner] leaves in the buffer for a byte it has
    passed: a CR becomes NUL. *)
Definition cr_to_nul (c : ascii) : ascii :=
  if Ascii.eqb c CR then NUL else c.

(** [strncmp(a, b, n) == 0]. *)
Fixpoint strncmp_eq (a b : list ascii) (n : nat) : bool :=
  match n with
  | O => true
  | S n' =>
      match a, b with
      | [], [] => true
      | x :: a', y :: b' => Ascii.eqb x y && strncmp_eq a' b' n'
      | _, _ => false
      end
  end.

Fixpoint starts_with (needle hay : list ascii) : bool :=
  match needle, hay with
  | [], _ => true
  | _ :: _, [] => false
  | x :: needle', y :: hay' => Ascii.eqb x y && starts_with needle' hay'
  end.

(** [strstr(hay, needle)]: the offset of the first occurrence, [None] for
    the null pointer. *)
Fixpoint strstr (hay needle : list ascii) : option nat :=
  if starts_with needle hay then Some O
  else match hay with
       | [] => None
       | _ :: hay' => S <$> strstr hay' needle
       end.

(** *** [strtol(nptr, NULL, 10)]

    White space is skipped, one sign is accepted, then the longest run of
    decimal digits is read; with no digit the value is 0.  The value is
    clamped to the range of [long] (64 bits here). *)

Definition LONG_MAX : Z := 2 ^ 63 - 1.
Definition LONG_MIN : Z := - 2 ^ 63.

Definition isspace (c : ascii) : bool :=
  let n := Z.of_N (N_of_ascii c) in (n =? 32) || ((9 <=? n) && (n <=? 13)).

Definition digit_val (c : ascii) : option Z :=
  let n := Z.of_N (N_of_ascii c) in
  if (48 <=? n) && (n <=? 57) then Some (n - 48) else None.

Fixpoint skip_space (l : list ascii) : list ascii :=
  match l with
  | c :: l' => if isspace c then skip_space l' else l
  | [] => []
  end.

Fixpoint read_digits (acc : Z) (l : list ascii) : Z :=
  match l with
  | c :: l' =>
      match digit_val c with
      | Some d => read_digits (acc * 10 + d) l'
      | None => acc
      end
  | [] => acc
  end.

Definition strtol (nptr : list ascii) : Z :=
  match skip_space nptr with
  | c :: l =>
      if Ascii.eqb c "-" then Z.max LONG_MIN (- read_digits 0 l)
      else if Ascii.eqb c "+" then Z.min LONG_MAX (read_digits 0 l)
      else Z.min LONG_MAX (read_digits 0 (c :: l))
  | [] => 0
  end.

(** ** Machine integers

    [int] is 32 bits wide; a value that does not fit wraps around. *)

Definition to_int (z : Z) : Z := (z + 2 ^ 31) mod 2 ^ 32 - 2 ^ 31.

Definition int_shl (a n : Z) : Z := to_int (Z.shiftl a n).

(** Modelled from the spec: the macro [SSH_VERSION_INT] of [libssh.h],
    "integer encoded as [(major<<16)|(minor<<8)|patch]". *)
Definition SSH_VERSION_INT (a b c : Z) : Z :=
  Z.lor (Z.lor (int_shl a 16) (int_shl b 8)) c.

(** ** Constants of [libssh.h] and [ssh2.h] *)

(** Modelled from the spec: the return code of [libssh.h] for success,
    "returns 0 on reaching AUTHENTICATING". *)
Definition SSH_OK : Z := 0.

(** Modelled from the spec: the return code of [libssh.h] for an error,
    "error otherwise"; [client.c] tests it with [< 0]. *)
Definition SSH_ERROR : Z := -1.

(** Modelled from the spec: "MSG_DISCONNECT (1)". *)
Definition SSH2_MSG_DISCONNECT : Z := 1.

(** Modelled from the spec: "MSG_NEWKEYS (21)". *)
Definition SSH2_MSG_NEWKEYS : Z := 21.

(** Modelled from the spec: "MSG_KEXDH_INIT (30)". *)
Definition SSH2_MSG_KEXDH_INIT : Z := 30.

(** Modelled from the spec: "MSG_KEXDH_REPLY (31)". *)
Definition SSH2_MSG_KEXDH_REPLY : Z := 31.

(** Modelled from the spec: "reason BY_APPLICATION = 11". *)
Definition SSH2_DISCONNECT_BY_APPLICATION : Z := 11.

(** ** The states *)

(** Modelled from the spec: [enum ssh_session_state_e] of [session.h],
    "one of NONE, CONNECTING, SOCKET_CONNECTED, BANNER_RECEIVED,
    INITIAL_KEX, AUTHENTICATING, ERROR". *)
Inductive ssh_session_state_e : Set :=
  | SSH_SESSION_STATE_NONE
  | SSH_SESSION_STATE_CONNECTING
  | SSH_SESSION_STATE_SOCKET_CONNECTED
  | SSH_SESSION_STATE_BANNER_RECEIVED
  | SSH_SESSION_STATE_INITIAL_KEX
  | SSH_SESSION_STATE_AUTHENTICATING
  | SSH_SESSION_STATE_ERROR.

Inductive ssh_dh_state_e : Set :=
  | DH_STATE_INIT
  | DH_STATE_INIT_TO_SEND
  | DH_STATE_INIT_SENT
  | DH_STATE_NEWKEYS_TO_SEND
  | DH_STATE_NEWKEYS_SENT
  | DH_STATE_FINISHED.

#[global] Instance ssh_session_state_e_eq_dec : EqDecision ssh_session_state_e.
Proof. solve_decision. Defined.

#[global] Instance ssh_dh_state_e_eq_dec : EqDecision ssh_dh_state_e.
Proof. solve_decision. Defined.

(** The last error of a session, one constructor per message that
    [client.c] gives to [ssh_set_error] (always with [SSH_FATAL]). *)
Inductive ssh_error_text : Type :=
  | Connection_failed (os_errno : Z)          (* "Connection failed: %s" *)
  | Socket_error (os_errno : Z)               (* "Socket error: %s" *)
  | Too_large_banner                          (* "Receiving banner: too large banner" *)
  | Protocol_mismatch (banner : list ascii)   (* "Protocol mismatch: %s" *)
  | No_public_key                             (* "No public key in packet" *)
  | No_F_number                               (* "No F number in packet" *)
  | Cannot_import_f                           (* "Cannot import f number" *)
  | No_signature                              (* "No signature in packet" *)
  | Cannot_build_k                            (* "Cannot build k number" *)
  | Invalid_dh_state (st : ssh_dh_state_e)    (* "Invalid state in dh_handshake(): %d" *)
  | No_version_usable (banner : list ascii)   (* "No version of SSH protocol usable (banner: %s)" *)
  | Invalid_state (st : ssh_session_state_e)  (* "Invalid state %d" *)
  | Hostname_required                         (* "Hostname required" *)
  | Invalid_session_pointer.                  (* "Invalid session pointer" *)

(** ** Memory

    An [ssh_string] and a crypto context are heap objects; a pointer to one
    is its identity, a natural number that is never handed out twice, and
    [None] is the null pointer.  A released object stays in the heap,
    marked, with the bytes it held when it was released. *)

Inductive string_cell : Type :=
  | String_live (data : list ascii)
  | String_freed (data : list ascii).

Inductive crypto_cell : Set :=
  | Crypto_live
  | Crypto_freed.

Definition zeros (n : nat) : list ascii := repeat NUL n.

(** The heap of strings once the string [p] has been wiped and released. *)
Definition released (p : nat) (m : gmap nat string_cell)
  : gmap nat string_cell :=
  match m !! p with
  | Some (String_live d) => <[p := String_freed (zeros (length d))]> m
  | _ => m
  end.

Definition released_opt (p : option nat) (m : gmap nat string_cell)
  : gmap nat string_cell :=
  match p with
  | Some p => released p m
  | None => m
  end.

(** Of the strings that the heap [m0] did not have, those that are live in
    [m] are among [live] and those that are released hold zeros. *)
Definition cells_ok (m0 m : gmap nat string_cell) (live : list nat) : Prop :=
  ∀ p, m0 !! p = None →
       match m !! p with
       | None => True
       | Some (String_live _) => p ∈ live
       | Some (String_freed d) => d = zeros (length d)
       end.

(** What the socket hands to the session (see [ssh_handle_packets]). *)
Inductive socket_event : Type :=
  | Socket_connected (code os_errno : Z)
  | Socket_exception (code os_errno : Z)
  | Socket_data (data : list ascii).

(** The function installed in [socket_callbacks.data]. *)
Inductive socket_data_callback : Set :=
  | Data_callback_receive_banner
  | Data_ssh_packet_socket_callback.

Record ssh_socket_callbacks_struct : Set := {
  cb_data : option socket_data_callback;
  cb_connected : bool;    (* [socket_callback_connected] is installed *)
  cb_exception : bool;    (* [socket_callback_exception] is installed *)
  cb_user : bool          (* [user] points to the session *)
}.

Section Client.

(** ** The collaborators

    [client.c] calls into the socket, the buffers, the packet layer, the
    Diffie-Hellman code and the key exchange, none of which it defines.
    Their state is [extern]: the contents of the crypto contexts, indexed
    by pointer, and a [world] of type [W] for everything else (socket,
    buffers, negotiated algorithms, the peer).  An operation of a
    collaborator is any function on [extern].  In C most of them receive
    the session; here each receives the part of it that is its own, so a
    collaborator does not re-bind a field that [client.c] manages (the
    states, the banners, the pointers to the crypto contexts and to the
    signature).  This is assumed of the rest of the library.  The
    properties below hold for every choice of the collaborators. *)

Context {W C : Type}.

Record extern : Type := {
  crypto_mem : nat -> C;
  world : W
}.

Record collaborators : Type := {
  (* constants of [priv.h], [socket.h] and the platform *)
  CLIENTBANNER1 : list ascii;
  CLIENTBANNER2 : list ascii;
  SSH_SOCKET_CONNECTED_OK : Z;
  htonl : Z -> Z;
  crypto_zero : C;
  (* the allocator: whether the next allocation succeeds *)
  malloc_ok : extern -> bool * extern;
  (* the bytes that lie in memory behind the terminating NUL of the
     server banner *)
  bytes_past_nul : extern -> list ascii;
  (* init.c *)
  ssh_init : extern -> Z * extern;
  (* error.c: [ssh_set_error] when it is handed the null pointer; whether
     the call comes back *)
  ssh_set_error_NULL : ssh_error_text -> bool;
  (* socket.c *)
  ssh_socket_set_callbacks : extern -> extern;
  ssh_socket_set_fd : Z -> extern -> extern;
  ssh_socket_connect :
    option (list ascii) -> Z -> option (list ascii) -> extern -> Z * extern;
  ssh_socket_is_open : extern -> bool;
  ssh_socket_close : extern -> extern;
  ssh_socket_write : list ascii -> extern -> Z * extern;
  ssh_socket_blocking_flush : extern -> Z * extern;
  ssh_socket_poll : extern -> option socket_event * extern;
  ssh_socket_consumed : Z -> list ascii -> extern -> extern;
  (* buffer.c *)
  buffer_add_u8 : Z -> extern -> Z * extern;
  buffer_add_u32 : Z -> extern -> Z * extern;
  buffer_add_ssh_string : list ascii -> extern -> Z * extern;
  buffer_get_ssh_string : extern -> option (list ascii) * extern;
  (* packet.c *)
  packet_send : extern -> Z * extern;
  packet_flush : Z -> extern -> Z * extern;
  packet_wait : Z -> Z -> extern -> Z * extern;
  ssh_packet_set_default_callbacks : extern -> extern;
  ssh_packet_socket_callback : list ascii -> extern -> Z * extern;
  (* dh.c *)
  dh_generate_x : extern -> Z * extern;
  dh_generate_e : extern -> Z * extern;
  dh_get_e : extern -> option (list ascii) * extern;
  dh_import_pubkey : nat -> extern -> extern;
  dh_import_f : list ascii -> extern -> Z * extern;
  dh_build_k : extern -> Z * extern;
  make_sessionid : extern -> Z * extern;
  generate_session_keys : extern -> Z * extern;
  signature_verify : option (list ascii) -> extern -> Z * extern;
  (* wrapper.c *)
  crypt_set_algorithms : extern -> Z * extern;
  (* kex.c *)
  ssh_get_kex : Z -> extern -> Z * extern;
  ssh_list_kex : extern -> extern;
  set_kex : extern -> Z * extern;
  ssh_send_kex : Z -> extern -> Z * extern;
  ssh_get_kex1 : extern -> Z * extern
}.

(** ** The session

    The fields of [struct ssh_session_struct] that [client.c] reads or
    writes, the two heaps and the state of the collaborators.  [status_log]
    holds what the progress callback has received, in tenths: 2 is 0.2. *)

Record session := {
  alive : Z;
  client : Z;
  connected : Z;
  fd : Z;
  host : option (list ascii);
  port : Z;
  bindaddr : option (list ascii);
  session_state : ssh_session_state_e;
  dh_handshake_state : ssh_dh_state_e;
  version : Z;
  ssh1 : Z;
  ssh2 : Z;
  openssh : Z;
  serverbanner : option (list ascii);
  clientbanner : option (list ascii);
  xbanner : option (list ascii);
  banner : option nat;
  current_crypto : option nat;
  next_crypto : option nat;
  dh_server_signature : option nat;
  socket_callbacks : ssh_socket_callbacks_struct;
  connect_status_function : bool;
  error : option ssh_error_text;
  status_log : list Z;
  strings : gmap nat string_cell;
  cryptos : gmap nat crypto_cell;
  ext : extern
}.

Definition set_alive (v : Z) (s : session) : session :=
  {| alive := v; client := client s; connected := connected s; fd := fd s;
     host := host s; port := port s; bindaddr := bindaddr s;
     session_state := session_state s;
     dh_handshake_state := dh_handshake_state s; version := version s;
     ssh1 := ssh1 s; ssh2 := ssh2 s; openssh := openssh s;
     serverbanner := serverbanner s; clientbanner := clientbanner s;
     xbanner := xbanner s; banner := banner s;
     current_crypto := current_crypto s; next_crypto := next_crypto s;
     dh_server_signature := dh_server_signature s;
     socket_callbacks := socket_callbacks s;
     connect_status_function := connect_status_function s; error := error s;
     status_log := status_log s; strings := strings s; cryptos := cryptos s;
     ext := ext s |}.

Definition set_client (v : Z) (s : session) : session :=
  {| alive := alive s; client := v; connected := connected s; fd := fd s;
     host := host s; port := port s; bindaddr := bindaddr s;
     session_state := session_state s;
     dh_handshake_state := dh_handshake_state s; version := version s;
     ssh1 := ssh1 s; ssh2 := ssh2 s; openssh := openssh s;
     serverbanner := serverbanner s; clientbanner := clientbanner s;
     xbanner := xbanner s; banner := banner s;
     current_crypto := current_crypto s; next_crypto := next_crypto s;
     dh_server_signature := dh_server_signature s;
     socket_callbacks := socket_callbacks s;
     connect_status_function := connect_status_function s; error := error s;
     status_log := status_log s; strings := strings s; cryptos := cryptos s;
     ext := ext s |}.

Definition set_connected (v : Z) (s : session) : session :=
  {| alive := alive s; client := client s; connected := v; fd := fd s;
     host := host s; port := port s; bindaddr := bindaddr s;
     session_state := session_state s;
     dh_handshake_state := dh_handshake_state s; version := version s;
     ssh1 := ssh1 s; ssh2 := ssh2 s; openssh := openssh s;
     serverbanner := serverbanner s; clientbanner := clientbanner s;
     xbanner := xbanner s; banner := banner s;
     current_crypto := current_crypto s; next_crypto := next_crypto s;
     dh_server_signature := dh_server_signature s;
     socket_callbacks := socket_callbacks s;
     connect_status_function := connect_status_function s; error := error s;
     status_log := status_log s; strings := strings s; cryptos := cryptos s;
     ext := ext s |}.

Definition set_session_state (v : ssh_session_state_e) (s : session) : session :=
  {| alive := alive s; client := client s; connected := connected s;
     fd := fd s; host := host s; port := port s; bindaddr := bindaddr s;
     session_state := v; dh_handshake_state := dh_handshake_state s;
     version := version s; ssh1 := ssh1 s; ssh2 := ssh2 s;
     openssh := openssh s; serverbanner := serverbanner s;
     clientbanner := clientbanner s; xbanner := xbanner s;
     banner := banner s; current_crypto := current_crypto s;
     next_crypto := next_crypto s;
     dh_server_signature := dh_server_signature s;
     socket_callbacks := socket_callbacks s;
     connect_status_function := connect_status_function s; error := error s;
     status_log := status_log s; strings := strings s; cryptos := cryptos s;
     ext := ext s |}.

Definition set_dh_handshake_state (v : ssh_dh_state_e) (s : session) : session :=
  {| alive := alive s; client := client s; connected := connected s;
     fd := fd s; host := host s; port := port s; bindaddr := bindaddr s;
     session_state := session_state s; dh_handshake_state := v;
     version := version s; ssh1 := ssh1 s; ssh2 := ssh2 s;
     openssh := openssh s; serverbanner := serverbanner s;
     clientbanner := clientbanner s; xbanner := xbanner s;
     banner := banner s; current_crypto := current_crypto s;
     next_crypto := next_crypto s;
     dh_server_signature := dh_server_signature s;
     socket_callbacks := socket_callbacks s;
     connect_status_function := connect_status_function s; error := error s;
     status_log := status_log s; strings := strings s; cryptos := cryptos s;
     ext := ext s |}.

Definition set_version (v : Z) (s : session) : session :=
  {| alive := alive s; client := client s; connected := connected s;
     fd := fd s; host := host s; port := port s; bindaddr := bindaddr s;
     session_state := session_state s;
     dh_handshake_state := dh_handshake_state s; version := v;
     ssh1 := ssh1 s; ssh2 := ssh2 s; openssh := openssh s;
     serverbanner := serverbanner s; clientbanner := clientbanner s;
     xbanner := xbanner s; banner := banner s;
     current_crypto := current_crypto s; next_crypto := next_crypto s;
     dh_server_signature := dh_server_signature s;
     socket_callbacks := socket_callbacks s;
     connect_status_function := connect_status_function s; error := error s;
     status_log := status_log s; strings := strings s; cryptos := cryptos s;
     ext := ext s |}.

Definition set_openssh (v : Z) (s : session) : session :=
  {| alive := alive s; client := client s; connected := connected s;
     fd := fd s; host := host s; port := port s; bindaddr := bindaddr s;
     session_state := session_state s;
     dh_handshake_state := dh_handshake_state s; version := version s;
     ssh1 := ssh1 s; ssh2 := ssh2 s; openssh := v;
     serverbanner := serverbanner s; clientbanner := clientbanner s;
     xbanner := xbanner s; banner := banner s;
     current_crypto := current_crypto s; next_crypto := next_crypto s;
     dh_server_signature := dh_server_signature s;
     socket_callbacks := socket_callbacks s;
     connect_status_function := connect_status_function s; error := error s;
     status_log := status_log s; strings := strings s; cryptos := cryptos s;
     ext := ext s |}.

Definition set_serverbanner (v : option (list ascii)) (s : session) : session :=
  {| alive := alive s; client := client s; connected := connected s;
     fd := fd s; host := host s; port := port s; bindaddr := bindaddr s;
     session_state := session_state s;
     dh_handshake_state := dh_handshake_state s; version := version s;
     ssh1 := ssh1 s; ssh2 := ssh2 s; openssh := openssh s; serverbanner := v;
     clientbanner := clientbanner s; xbanner := xbanner s;
     banner := banner s; current_crypto := current_crypto s;
     next_crypto := next_crypto s;
     dh_server_signature := dh_server_signature s;
     socket_callbacks := socket_callbacks s;
     connect_status_function := connect_status_function s; error := error s;
     status_log := status_log s; strings := strings s; cryptos := cryptos s;
     ext := ext s |}.

Definition set_clientbanner (v : option (list ascii)) (s : session) : session :=
  {| alive := alive s; client := client s; connected := connected s;
     fd := fd s; host := host s; port := port s; bindaddr := bindaddr s;
     session_state := session_state s;
     dh_handshake_state := dh_handshake_state s; version := version s;
     ssh1 := ssh1 s; ssh2 := ssh2 s; openssh := openssh s;
     serverbanner := serverbanner s; clientbanner := v; xbanner := xbanner s;
     banner := banner s; current_crypto := current_crypto s;
     next_crypto := next_crypto s;
     dh_server_signature := dh_server_signature s;
     socket_callbacks := socket_callbacks s;
     connect_status_function := connect_status_function s; error := error s;
     status_log := status_log s; strings := strings s; cryptos := cryptos s;
     ext := ext s |}.

Definition set_current_crypto (v : option nat) (s : session) : session :=
  {| alive := alive s; client := client s; connected := connected s;
     fd := fd s; host := host s; port := port s; bindaddr := bindaddr s;
     session_state := session_state s;
     dh_handshake_state := dh_handshake_state s; version := version s;
     ssh1 := ssh1 s; ssh2 := ssh2 s; openssh := openssh s;
     serverbanner := serverbanner s; clientbanner := clientbanner s;
     xbanner := xbanner s; banner := banner s; current_crypto := v;
     next_crypto := next_crypto s;
     dh_server_signature := dh_server_signature s;
     socket_callbacks := socket_callbacks s;
     connect_status_function := connect_status_function s; error := error s;
     status_log := status_log s; strings := strings s; cryptos := cryptos s;
     ext := ext s |}.

Definition set_next_crypto (v : option nat) (s : session) : session :=
  {| alive := alive s; client := client s; connected := connected s;
     fd := fd s; host := host s; port := port s; bindaddr := bindaddr s;
     session_state := session_state s;
     dh_handshake_state := dh_handshake_state s; version := version s;
     ssh1 := ssh1 s; ssh2 := ssh2 s; openssh := openssh s;
     serverbanner := serverbanner s; clientbanner := clientbanner s;
     xbanner := xbanner s; banner := banner s;
     current_crypto := current_crypto s; next_crypto := v;
     dh_server_signature := dh_server_signature s;
     socket_callbacks := socket_callbacks s;
     connect_status_function := connect_status_function s; error := error s;
     status_log := status_log s; strings := strings s; cryptos := cryptos s;
     ext := ext s |}.

Definition set_dh_server_signature (v : option nat) (s : session) : session :=
  {| alive := alive s; client := client s; connected := connected s;
     fd := fd s; host := host s; port := port s; bindaddr := bindaddr s;
     session_state := session_state s;
     dh_handshake_state := dh_handshake_state s; version := version s;
     ssh1 := ssh1 s; ssh2 := ssh2 s; openssh := openssh s;
     serverbanner := serverbanner s; clientbanner := clientbanner s;
     xbanner := xbanner s; banner := banner s;
     current_crypto := current_crypto s; next_crypto := next_crypto s;
     dh_server_signature := v; socket_callbacks := socket_callbacks s;
     connect_status_function := connect_status_function s; error := error s;
     status_log := status_log s; strings := strings s; cryptos := cryptos s;
     ext := ext s |}.

Definition set_socket_callbacks (v : ssh_socket_callbacks_struct) (s : session) : session :=
  {| alive := alive s; client := client s; connected := connected s;
     fd := fd s; host := host s; port := port s; bindaddr := bindaddr s;
     session_state := session_state s;
     dh_handshake_state := dh_handshake_state s; version := version s;
     ssh1 := ssh1 s; ssh2 := ssh2 s; openssh := openssh s;
     serverbanner := serverbanner s; clientbanner := clientbanner s;
     xbanner := xbanner s; banner := banner s;
     current_crypto := current_crypto s; next_crypto := next_crypto s;
     dh_server_signature := dh_server_signature s; socket_callbacks := v;
     connect_status_function := connect_status_function s; error := error s;
     status_log := status_log s; strings := strings s; cryptos := cryptos s;
     ext := ext s |}.

Definition set_error (v : option ssh_error_text) (s : session) : session :=
  {| alive := alive s; client := client s; connected := connected s;
     fd := fd s; host := host s; port := port s; bindaddr := bindaddr s;
     session_state := session_state s;
     dh_handshake_state := dh_handshake_state s; version := version s;
     ssh1 := ssh1 s; ssh2 := ssh2 s; openssh := openssh s;
     serverbanner := serverbanner s; clientbanner := clientbanner s;
     xbanner := xbanner s; banner := banner s;
     current_crypto := current_crypto s; next_crypto := next_crypto s;
     dh_server_signature := dh_server_signature s;
     socket_callbacks := socket_callbacks s;
     connect_status_function := connect_status_function s; error := v;
     status_log := status_log s; strings := strings s; cryptos := cryptos s;
     ext := ext s |}.

Definition set_status_log (v : list Z) (s : session) : session :=
  {| alive := alive s; client := client s; connected := connected s;
     fd := fd s; host := host s; port := port s; bindaddr := bindaddr s;
     session_state := session_state s;
     dh_handshake_state := dh_handshake_state s; version := version s;
     ssh1 := ssh1 s; ssh2 := ssh2 s; openssh := openssh s;
     serverbanner := serverbanner s; clientbanner := clientbanner s;
     xbanner := xbanner s; banner := banner s;
     current_crypto := current_crypto s; next_crypto := next_crypto s;
     dh_server_signature := dh_server_signature s;
     socket_callbacks := socket_callbacks s;
     connect_status_function := connect_status_function s; error := error s;
     status_log := v; strings := strings s; cryptos := cryptos s;
     ext := ext s |}.

Definition set_strings (v : gmap nat string_cell) (s : session) : session :=
  {| alive := alive s; client := client s; connected := connected s;
     fd := fd s; host := host s; port := port s; bindaddr := bindaddr s;
     session_state := session_state s;
     dh_handshake_state := dh_handshake_state s; version := version s;
     ssh1 := ssh1 s; ssh2 := ssh2 s; openssh := openssh s;
     serverbanner := serverbanner s; clientbanner := clientbanner s;
     xbanner := xbanner s; banner := banner s;
     current_crypto := current_crypto s; next_crypto := next_crypto s;
     dh_server_signature := dh_server_signature s;
     socket_callbacks := socket_callbacks s;
     connect_status_function := connect_status_function s; error := error s;
     status_log := status_log s; strings := v; cryptos := cryptos s;
     ext := ext s |}.

Definition set_cryptos (v : gmap nat crypto_cell) (s : session) : session :=
  {| alive := alive s; client := client s; connected := connected s;
     fd := fd s; host := host s; port := port s; bindaddr := bindaddr s;
     session_state := session_state s;
     dh_handshake_state := dh_handshake_state s; version := version s;
     ssh1 := ssh1 s; ssh2 := ssh2 s; openssh := openssh s;
     serverbanner := serverbanner s; clientbanner := clientbanner s;
     xbanner := xbanner s; banner := banner s;
     current_crypto := current_crypto s; next_crypto := next_crypto s;
     dh_server_signature := dh_server_signature s;
     socket_callbacks := socket_callbacks s;
     connect_status_function := connect_status_function s; error := error s;
     status_log := status_log s; strings := strings s; cryptos := v;
     ext := ext s |}.

Definition set_ext (v : extern) (s : session) : session :=
  {| alive := alive s; client := client s; connected := connected s;
     fd := fd s; host := host s; port := port s; bindaddr := bindaddr s;
     session_state := session_state s;
     dh_handshake_state := dh_handshake_state s; version := version s;
     ssh1 := ssh1 s; ssh2 := ssh2 s; openssh := openssh s;
     serverbanner := serverbanner s; clientbanner := clientbanner s;
     xbanner := xbanner s; banner := banner s;
     current_crypto := current_crypto s; next_crypto := next_crypto s;
     dh_server_signature := dh_server_signature s;
     socket_callbacks := socket_callbacks s;
     connect_status_function := connect_status_function s; error := error s;
     status_log := status_log s; strings := strings s; cryptos := cryptos s;
     ext := v |}.
Variable X : collaborators.

(** A call into a collaborator: it changes [ext] and nothing else. *)
Definition ext_rc {A : Type} (f : extern -> A * extern) (s : session)
  : A * session :=
  let (r, e) := f (ext s) in (r, set_ext e s).

Definition ext_do (f : extern -> extern) (s : session) : session :=
  set_ext (f (ext s)) s.

(** [ssh_set_error(session, SSH_FATAL, ...)]: the last error is recorded. *)
Definition ssh_set_error (msg : ssh_error_text) (s : session) : session :=
  set_error (Some msg) s.

(** The macro [set_status]: the progress callback is called when there is
    one; the values it has received are kept in [status_log]. *)
Definition set_status (tenths : Z) (s : session) : session :=
  if connect_status_function s
  then set_status_log (status_log s ++ [tenths]) s
  else s.

(** *** [ssh_string] objects *)

(** A new live string; its pointer is one that the heap has not seen. *)
Definition string_new (data : list ascii) (s : session) : nat * session :=
  let p := fresh (dom (strings s)) in
  (p, set_strings (<[p := String_live data]> (strings s)) s).

(** Modelled from the spec: [string_burn] of [string.c], "zero-wiped before
    release": the bytes of a live string are overwritten with zeros.
    [client.c] does not call it on a released string; such a string is
    left as it is. *)
Definition string_burn (p : nat) (s : session) : session :=
  match strings s !! p with
  | Some (String_live d) =>
      set_strings (<[p := String_live (zeros (length d))]> (strings s)) s
  | _ => s
  end.

(** Modelled from the spec: [string_free] of [string.c], the "release" of a
    string: a live string becomes a released one.  [client.c] does not call
    it twice on one string; a released string is left as it is. *)
Definition string_free (p : nat) (s : session) : session :=
  match strings s !! p with
  | Some (String_live d) =>
      set_strings (<[p := String_freed d]> (strings s)) s
  | _ => s
  end.

(** The bytes behind a pointer (those left behind, for a released one). *)
Definition string_read (s : session) (p : nat) : list ascii :=
  match strings s !! p with
  | Some (String_live d) => d
  | Some (String_freed d) => d
  | None => []
  end.

(** A collaborator returns a newly allocated [ssh_string], or NULL. *)
Definition get_string (f : extern -> option (list ascii) * extern)
    (s : session) : option nat * session :=
  let '(d, s) := ext_rc f s in
  match d with
  | Some data => let '(p, s) := string_new data s in (Some p, s)
  | None => (None, s)
  end.

(** [string_from_char(what)]: a new string, NULL when out of memory. *)
Definition string_from_char (what : list ascii) (s : session)
  : option nat * session :=
  let '(ok, s) := ext_rc (malloc_ok X) s in
  if ok then let '(p, s) := string_new what s in (Some p, s) else (None, s).

(** [string_to_char(str)]: a new C string with the bytes of [str]. *)
Definition string_to_char (p : nat) (s : session)
  : option (list ascii) * session :=
  let '(ok, s) := ext_rc (malloc_ok X) s in
  (if ok then Some (c_str (string_read s p)) else None, s).

(** [strdup(str)]: a copy of the C string, NULL when out of memory. *)
Definition strdup (str : list ascii) (s : session)
  : option (list ascii) * session :=
  let '(ok, s) := ext_rc (malloc_ok X) s in
  (if ok then Some (c_str str) else None, s).

(** *** Crypto contexts *)

(** The contents of the context [p] are set to zero. *)
Definition crypto_wipe (p : nat) (e : extern) : extern :=
  {| crypto_mem := fun q => if decide (q = p) then crypto_zero X
                            else crypto_mem e q;
     world := world e |}.

(** Modelled from the spec: [crypto_new] of [wrapper.c], "allocate", which
    gives "a fresh empty next_crypto": a new object whose contents are all
    zero, or NULL when there is no memory. *)
Definition crypto_new (s : session) : option nat * session :=
  let '(ok, s) := ext_rc (malloc_ok X) s in
  if ok then
    let p := fresh (dom (cryptos s)) in
    (Some p,
     ext_do (crypto_wipe p) (set_cryptos (<[p := Crypto_live]> (cryptos s)) s))
  else (None, s).

(** Modelled from the spec: [crypto_free] of [wrapper.c], the "zero-wiping
    release" of a context. *)
Definition crypto_free (p : nat) (s : session) : session :=
  ext_do (crypto_wipe p) (set_cryptos (<[p := Crypto_freed]> (cryptos s)) s).

(** ** [ssh_analyze_banner]

    [banner] is [session->serverbanner], which the one caller has checked
    not to be null.  The memory the function reads is the banner, its NUL
    and whatever lies behind it: [banner[6]] and [openssh + 8] can point
    there.  [ssh1] and [ssh2] are the pointees of the two out parameters. *)

Definition char_at (mem : list ascii) (i : nat) : ascii := nth i mem NUL.

Definition ssh_analyze_banner (s : session) (ssh1 ssh2 : Z)
  : Z * Z * Z * session :=
  let banner := match serverbanner s with Some b => b | None => [] end in
  let mem := banner ++ NUL :: bytes_past_nul X (ext s) in
  if negb (strncmp_eq banner (chars "SSH-") 4) then
    (-1, ssh1, ssh2, ssh_set_error (Protocol_mismatch banner) s)
  else
    let flags :=
      if Ascii.eqb (char_at mem 4) "1" then
        Some (1, if Ascii.eqb (char_at mem 6) "9" then 1 else 0)
      else if Ascii.eqb (char_at mem 4) "2" then Some (0, 1)
      else None in
    match flags with
    | None => (-1, ssh1, ssh2, ssh_set_error (Protocol_mismatch banner) s)
    | Some (ssh1, ssh2) =>
        let s :=
          match strstr banner (chars "OpenSSH") with
          | Some openssh =>
              let major := to_int (strtol (drop (openssh + 8) mem)) in
              let minor := to_int (strtol (drop (openssh + 10) mem)) in
              set_openssh (SSH_VERSION_INT major minor 0) s
          | None => s
          end in
        (0, ssh1, ssh2, s)
    end.

(** ** [ssh_send_banner]

    [snprintf(buffer, 128, "%s\r\n", banner)] keeps at most 127 bytes.  The
    packet capture of [WITH_PCAP] is not compiled in. *)

Definition ssh_send_banner (s : session) (server : Z) : Z * session :=
  let banner :=
    if version s =? 1 then CLIENTBANNER1 X else CLIENTBANNER2 X in
  let banner := match xbanner s with Some b => b | None => banner end in
  let '(copy, s) := strdup banner s in
  let s := if negb (server =? 0) then set_serverbanner copy s
           else set_clientbanner copy s in
  match copy with
  | None => (-1, s)
  | Some _ =>
      let buffer := take 127 (c_str banner ++ [CR; LF]) in
      let '(r, s) := ext_rc (ssh_socket_write X buffer) s in
      if r =? SSH_ERROR then (-1, s) else
      let '(r, s) := ext_rc (ssh_socket_blocking_flush X) s in
      if negb (r =? SSH_OK) then (-1, s) else (0, s)
  end.

(** ** [dh_handshake]

    The [switch] falls through from each state to the next, so every
    [case] is a function that ends in the next one; the four local strings
    and [rc] are passed along.  [dh_error] is the code behind the label
    [error]. *)

(** [string_burn(p); string_free(p);] for a pointer that may be null:
    both do nothing then. *)
Definition burn_and_free (p : option nat) (s : session) : session :=
  match p with
  | Some p => string_free p (string_burn p s)
  | None => s
  end.

Definition dh_error (e f pubkey signature : option nat) (rc : Z)
    (s : session) : Z * session :=
  let s := burn_and_free e s in
  let s := burn_and_free f s in
  let s := burn_and_free pubkey s in
  let s := burn_and_free signature s in
  (rc, s).

Definition dh_case_NEWKEYS_SENT (e f pubkey signature : option nat) (rc : Z)
    (s : session) : Z * session :=
  let '(rc, s) := ext_rc (packet_wait X SSH2_MSG_NEWKEYS 1) s in
  if negb (rc =? SSH_OK) then dh_error e f pubkey signature rc s else
  let '(rc, s) := ext_rc (make_sessionid X) s in
  if negb (rc =? SSH_OK) then dh_error e f pubkey signature rc s else
  let '(r, s) := ext_rc (crypt_set_algorithms X) s in
  if negb (r =? 0) then dh_error e f pubkey signature SSH_ERROR s else
  let '(r, s) := ext_rc (generate_session_keys X) s in
  if r <? 0 then dh_error e f pubkey signature SSH_ERROR s else
  (* Verify the host's signature. *)
  let signature := dh_server_signature s in
  let s := set_dh_server_signature None s in
  let '(r, s) :=
    ext_rc (signature_verify X (string_read s <$> signature)) s in
  if negb (r =? 0) then dh_error e f pubkey signature SSH_ERROR s else
  (* forget it for now ... *)
  let s := burn_and_free signature s in
  let signature : option nat := None in
  (* switch next_crypto and current_crypto *)
  let s := match current_crypto s with
           | Some c => set_current_crypto None (crypto_free c s)
           | None => s
           end in
  let s := set_current_crypto (next_crypto s) s in
  let '(fresh_crypto, s) := crypto_new s in
  let s := set_next_crypto fresh_crypto s in
  match fresh_crypto with
  | None => dh_error e f pubkey signature SSH_ERROR s
  | Some _ =>
      let s := set_dh_handshake_state DH_STATE_FINISHED s in
      (SSH_OK, s)
  end.

Definition dh_case_NEWKEYS_TO_SEND (e f pubkey signature : option nat)
    (rc : Z) (s : session) : Z * session :=
  let '(rc, s) := ext_rc (packet_flush X 0) s in
  if negb (rc =? SSH_OK) then dh_error e f pubkey signature rc s else
  let s := set_dh_handshake_state DH_STATE_NEWKEYS_SENT s in
  dh_case_NEWKEYS_SENT e f pubkey signature rc s.

Definition dh_case_INIT_SENT (e f pubkey signature : option nat) (rc : Z)
    (s : session) : Z * session :=
  let '(rc, s) := ext_rc (packet_wait X SSH2_MSG_KEXDH_REPLY 1) s in
  if negb (rc =? SSH_OK) then dh_error e f pubkey signature rc s else
  let '(pubkey, s) := get_string (buffer_get_ssh_string X) s in
  match pubkey with
  | None =>
      dh_error e f pubkey signature SSH_ERROR (ssh_set_error No_public_key s)
  | Some pubkey_p =>
  let s := ext_do (dh_import_pubkey X pubkey_p) s in
  let '(f, s) := get_string (buffer_get_ssh_string X) s in
  match f with
  | None =>
      dh_error e f pubkey signature SSH_ERROR (ssh_set_error No_F_number s)
  | Some f_p =>
  let '(r, s) := ext_rc (dh_import_f X (string_read s f_p)) s in
  if r <? 0 then
    dh_error e f pubkey signature SSH_ERROR (ssh_set_error Cannot_import_f s)
  else
  let s := string_free f_p (string_burn f_p s) in
  let f : option nat := None in
  let '(signature, s) := get_string (buffer_get_ssh_string X) s in
  match signature with
  | None =>
      dh_error e f pubkey signature SSH_ERROR (ssh_set_error No_signature s)
  | Some _ =>
  let s := set_dh_server_signature signature s in
  let '(r, s) := ext_rc (dh_build_k X) s in
  if r <? 0 then
    dh_error e f pubkey signature SSH_ERROR (ssh_set_error Cannot_build_k s)
  else
  (* Send the MSG_NEWKEYS *)
  let '(r, s) := ext_rc (buffer_add_u8 X SSH2_MSG_NEWKEYS) s in
  if r <? 0 then dh_error e f pubkey signature SSH_ERROR s else
  let '(rc, s) := ext_rc (packet_send X) s in
  if rc =? SSH_ERROR then dh_error e f pubkey signature rc s else
  let s := set_dh_handshake_state DH_STATE_NEWKEYS_TO_SEND s in
  dh_case_NEWKEYS_TO_SEND e f pubkey signature rc s
  end end end.

Definition dh_case_INIT_TO_SEND (e f pubkey signature : option nat) (rc : Z)
    (s : session) : Z * session :=
  let '(rc, s) := ext_rc (packet_flush X 0) s in
  if negb (rc =? SSH_OK) then dh_error e f pubkey signature rc s else
  let s := set_dh_handshake_state DH_STATE_INIT_SENT s in
  dh_case_INIT_SENT e f pubkey signature rc s.

Definition dh_case_INIT (e f pubkey signature : option nat) (rc : Z)
    (s : session) : Z * session :=
  let '(r, s) := ext_rc (buffer_add_u8 X SSH2_MSG_KEXDH_INIT) s in
  if r <? 0 then dh_error e f pubkey signature rc s else
  let '(r, s) := ext_rc (dh_generate_x X) s in
  if r <? 0 then dh_error e f pubkey signature rc s else
  let '(r, s) := ext_rc (dh_generate_e X) s in
  if r <? 0 then dh_error e f pubkey signature rc s else
  let '(e, s) := get_string (dh_get_e X) s in
  match e with
  | None => dh_error e f pubkey signature rc s
  | Some e_p =>
  let '(r, s) := ext_rc (buffer_add_ssh_string X (string_read s e_p)) s in
  if r <? 0 then dh_error e f pubkey signature rc s else
  let s := string_free e_p (string_burn e_p s) in
  let e : option nat := None in
  let '(rc, s) := ext_rc (packet_send X) s in
  if rc =? SSH_ERROR then dh_error e f pubkey signature rc s else
  let s := set_dh_handshake_state DH_STATE_INIT_TO_SEND s in
  dh_case_INIT_TO_SEND e f pubkey signature rc s
  end.

Definition dh_handshake (s : session) : Z * session :=
  let e : option nat := None in
  let f : option nat := None in
  let pubkey : option nat := None in
  let signature : option nat := None in
  let rc := SSH_ERROR in
  match dh_handshake_state s with
  | DH_STATE_INIT => dh_case_INIT e f pubkey signature rc s
  | DH_STATE_INIT_TO_SEND => dh_case_INIT_TO_SEND e f pubkey signature rc s
  | DH_STATE_INIT_SENT => dh_case_INIT_SENT e f pubkey signature rc s
  | DH_STATE_NEWKEYS_TO_SEND =>
      dh_case_NEWKEYS_TO_SEND e f pubkey signature rc s
  | DH_STATE_NEWKEYS_SENT => dh_case_NEWKEYS_SENT e f pubkey signature rc s
  | DH_STATE_FINISHED =>     (* default: *)
      (SSH_ERROR, ssh_set_error (Invalid_dh_state (dh_handshake_state s)) s)
  end.

(** ** [connection_callback]

    [connection_callback_error] is the code behind its label [error].  The
    two locals [ssh1] and [ssh2] are not initialised; they are read only
    after [ssh_analyze_banner] has written them. *)

Definition connection_callback_error (s : session) : session :=
  let s := ext_do (ssh_socket_close X) s in
  let s := set_alive 0 s in
  set_session_state SSH_SESSION_STATE_ERROR s.

Definition connection_callback (s : session) : session :=
  match session_state s with
  | SSH_SESSION_STATE_NONE
  | SSH_SESSION_STATE_CONNECTING
  | SSH_SESSION_STATE_SOCKET_CONNECTED => s
  | SSH_SESSION_STATE_BANNER_RECEIVED =>
      match serverbanner s with
      | None => connection_callback_error s
      | Some banner =>
          let s := set_status 4 s in
          (* Here we analyse the different protocols the server allows. *)
          let '(rc, server_ssh1, server_ssh2, s) :=
            ssh_analyze_banner s 0 0 in
          if rc <? 0 then connection_callback_error s else
          (* Here we decide which version of the protocol to use. *)
          let chosen :=
            if negb (server_ssh2 =? 0) && negb (ssh2 s =? 0) then Some 2
            else if negb (server_ssh1 =? 0) && negb (ssh1 s =? 0) then Some 1
            else None in
          match chosen with
          | None =>
              connection_callback_error
                (ssh_set_error (No_version_usable banner) s)
          | Some v =>
              let s := set_version v s in
              (* from now, the packet layer is handling incoming packets *)
              let s :=
                set_socket_callbacks
                  {| cb_data := Some Data_ssh_packet_socket_callback;
                     cb_connected := cb_connected (socket_callbacks s);
                     cb_exception := cb_exception (socket_callbacks s);
                     cb_user := cb_user (socket_callbacks s) |} s in
              let s := ext_do (ssh_packet_set_default_callbacks X) s in
              let '(_, s) := ssh_send_banner s 0 in
              let s := set_status 5 s in
              set_session_state SSH_SESSION_STATE_INITIAL_KEX s
          end
      end
  | SSH_SESSION_STATE_INITIAL_KEX =>
      if version s =? 2 then
        let '(_, s) := ext_rc (ssh_get_kex X 0) s in
        let s := set_status 6 s in
        let s := ext_do (ssh_list_kex X) s in
        let '(r, s) := ext_rc (set_kex X) s in
        if r <? 0 then connection_callback_error s else
        let '(r, s) := ext_rc (ssh_send_kex X 0) s in
        if r <? 0 then connection_callback_error s else
        let s := set_status 8 s in
        let '(r, s) := dh_handshake s in
        if r <? 0 then connection_callback_error s else
        let s := set_status 10 s in
        let s := set_connected 1 s in
        set_session_state SSH_SESSION_STATE_AUTHENTICATING s
      else if version s =? 1 then
        let '(r, s) := ext_rc (ssh_get_kex1 X) s in
        if r <? 0 then connection_callback_error s else
        let s := set_status 6 s in
        let s := set_connected 1 s in
        set_session_state SSH_SESSION_STATE_AUTHENTICATING s
      else set_session_state SSH_SESSION_STATE_AUTHENTICATING s
  | SSH_SESSION_STATE_AUTHENTICATING => s
  | SSH_SESSION_STATE_ERROR =>      (* default: *)
      ssh_set_error (Invalid_state (session_state s)) s
  end.

(** ** The socket callbacks *)

Definition socket_callback_connected (code os_errno : Z) (s : session)
  : session :=
  let s :=
    if code =? SSH_SOCKET_CONNECTED_OK X then
      set_session_state SSH_SESSION_STATE_SOCKET_CONNECTED s
    else
      let s := set_session_state SSH_SESSION_STATE_ERROR s in
      ssh_set_error (Connection_failed os_errno) s in
  connection_callback s.

Definition socket_callback_exception (code os_errno : Z) (s : session)
  : session :=
  let s := set_session_state SSH_SESSION_STATE_ERROR s in
  let s := ssh_set_error (Socket_error os_errno) s in
  connection_callback s.

(** ** [callback_receive_banner]

    The loop runs over the bytes of [data]: [before] are the bytes already
    visited, as the loop has left them in the buffer, [i] is the index and
    [rest] the bytes from [buffer[i]] on.  The result is the return value,
    the buffer as the function leaves it (a CR is overwritten in place) and
    the session.  [ret] is 0 until a line feed is found. *)

Fixpoint receive_banner_loop (before rest : list ascii) (i : nat)
    (s : session) : Z * list ascii * session :=
  match rest with
  | [] => (0, before, s)
  | c :: rest' =>
      let c := if Ascii.eqb c CR then NUL else c in
      if Ascii.eqb c LF then
        let buffer := before ++ NUL :: rest' in
        let '(str, s) := strdup buffer s in
        (* number of bytes read *)
        let ret := Z.of_nat i + 1 in
        let s := set_serverbanner str s in
        let s := set_session_state SSH_SESSION_STATE_BANNER_RECEIVED s in
        let s := connection_callback s in
        (ret, buffer, s)
      else if (127 <? i)%nat then
        (* Too big banner *)
        let s := set_session_state SSH_SESSION_STATE_ERROR s in
        let s := ssh_set_error Too_large_banner s in
        (0, before ++ c :: rest', s)
      else receive_banner_loop (before ++ [c]) rest' (S i) s
  end.

Definition callback_receive_banner (data : list ascii) (s : session)
  : Z * list ascii * session :=
  receive_banner_loop [] data 0 s.

(** ** [ssh_handle_packets] *)

(** Modelled from the spec: [ssh_handle_packets] of [session.c], which
    "blocks until one socket event has been processed": the socket reports
    one event, or none, and the event goes to the function that
    [socket_callbacks] names for it.  The data callback answers with the
    number of bytes it has consumed.  Once the data callback is the packet
    layer's, [connection_callback] is "invoked after every socket event". *)
Definition ssh_handle_packets (s : session) : session :=
  let '(event, s) := ext_rc (ssh_socket_poll X) s in
  match event with
  | None => s
  | Some (Socket_connected code os_errno) =>
      if cb_connected (socket_callbacks s)
      then socket_callback_connected code os_errno s else s
  | Some (Socket_exception code os_errno) =>
      if cb_exception (socket_callbacks s)
      then socket_callback_exception code os_errno s else s
  | Some (Socket_data data) =>
      match cb_data (socket_callbacks s) with
      | Some Data_callback_receive_banner =>
          let '(consumed, buffer, s) := callback_receive_banner data s in
          ext_do (ssh_socket_consumed X consumed buffer) s
      | Some Data_ssh_packet_socket_callback =>
          let '(consumed, s) :=
            ext_rc (ssh_packet_socket_callback X data) s in
          let s := ext_do (ssh_socket_consumed X consumed data) s in
          connection_callback s
      | None => s
      end
  end.

(** ** [ssh_connect]

    The [while] loop has no bound in C; here it runs for at most [fuel]
    rounds and [None] says that the fuel did not suffice.  The argument is
    the session pointer, [None] for NULL.  For NULL the function hands the
    null pointer to [ssh_set_error] before it returns; [error.c] is not
    part of [client.c], so whether that call comes back is a collaborator's
    answer, and there is no result when it does not. *)

Definition connect_loop_done (s : session) : bool :=
  bool_decide (session_state s = SSH_SESSION_STATE_ERROR)
  || bool_decide (session_state s = SSH_SESSION_STATE_AUTHENTICATING).

Fixpoint ssh_connect_loop (fuel : nat) (s : session) : option session :=
  if connect_loop_done s then Some s
  else match fuel with
       | O => None
       | S fuel' => ssh_connect_loop fuel' (ssh_handle_packets s)
       end.

Definition ssh_connect (fuel : nat) (session_ptr : option session)
  : option (Z * option session) :=
  match session_ptr with
  | None =>
      if ssh_set_error_NULL X Invalid_session_pointer
      then Some (SSH_ERROR, None) else None
  | Some s =>
      let s := set_alive 0 s in
      let s := set_client 1 s in
      let '(r, s) := ext_rc (ssh_init X) s in
      if r <? 0 then Some (SSH_ERROR, Some s) else
      if (fd s =? -1) && bool_decide (host s = None) then
        Some (SSH_ERROR, Some (ssh_set_error Hostname_required s))
      else
      let s := set_session_state SSH_SESSION_STATE_CONNECTING s in
      let s := ext_do (ssh_socket_set_callbacks X) s in
      let s :=
        set_socket_callbacks
          {| cb_data := Some Data_callback_receive_banner;
             cb_connected := true;
             cb_exception := true;
             cb_user := true |} s in
      let '(ret, s) :=
        if negb (fd s =? -1) then
          (SSH_OK, ext_do (ssh_socket_set_fd X (fd s)) s)
        else
          ext_rc (ssh_socket_connect X (host s) (port s) (bindaddr s)) s in
      if negb (ret =? SSH_OK) then Some (SSH_ERROR, Some s) else
      let s := set_status 2 s in
      let s := set_alive 1 s in
      match ssh_connect_loop fuel s with
      | Some s => Some (0, Some s)
      | None => None
      end
  end.

(** ** The accessors and [ssh_disconnect]

    Each takes the session pointer and gives back what the pointer leads to
    afterwards, beside its result. *)

Definition ssh_get_issue_banner (session_ptr : option session)
  : option (list ascii) * option session :=
  match session_ptr with
  | None => (None, None)
  | Some s =>
      match banner s with
      | None => (None, Some s)
      | Some p => let '(r, s) := string_to_char p s in (r, Some s)
      end
  end.

Definition ssh_get_openssh_version (session_ptr : option session)
  : Z * option session :=
  match session_ptr with
  | None => (0, None)
  | Some s => (openssh s, Some s)
  end.

Definition ssh_disconnect (session_ptr : option session) : option session :=
  match session_ptr with
  | None => None
  | Some s =>
      Some
        (if ssh_socket_is_open X (ext s) then
           let '(r, s) := ext_rc (buffer_add_u8 X SSH2_MSG_DISCONNECT) s in
           if r <? 0 then s else
           let '(r, s) :=
             ext_rc (buffer_add_u32 X
                       (htonl X SSH2_DISCONNECT_BY_APPLICATION)) s in
           if r <? 0 then s else
           let '(str, s) := string_from_char (chars "Bye Bye") s in
           match str with
           | None => s
           | Some str =>
               let '(r, s) :=
                 ext_rc (buffer_add_ssh_string X (string_read s str)) s in
               if r <? 0 then string_free str s else
               let s := string_free str s in
               let '(_, s) := ext_rc (packet_send X) s in
               let s := ext_do (ssh_socket_close X) s in
               set_alive 0 s
           end
         else set_alive 0 s)
  end.

(** ** Notions used in the statements *)

(** The crypto contexts have been rotated between [s] and [s']. *)
Definition swapped (s s' : session) : Prop :=
  current_crypto s' = next_crypto s
  ∧ (∀ p, current_crypto s = Some p → cryptos s' !! p = Some Crypto_freed)
  ∧ ∃ q, next_crypto s' = Some q
         ∧ cryptos s !! q = None
         ∧ cryptos s' !! q = Some Crypto_live
         ∧ crypto_mem (ext s') q = crypto_zero X.

(** The crypto contexts of [s] are those of [s0]. *)
Definition crypto_same (s0 s : session) : Prop :=
  current_crypto s = current_crypto s0
  ∧ next_crypto s = next_crypto s0
  ∧ cryptos s = cryptos s0.

(** How a run of the handshake that began with the contexts of [s0] can
    end: not in [DH_STATE_FINISHED], or with [SSH_OK] and the rotation. *)
Definition dh_outcome (s0 : session) (r : Z) (s' : session) : Prop :=
  dh_handshake_state s' ≠ DH_STATE_FINISHED
  ∨ (r = SSH_OK ∧ dh_handshake_state s' = DH_STATE_FINISHED ∧ swapped s0 s').

End Client.

Arguments extern : clear implicits.
Arguments collaborators : clear implicits.
Arguments session : clear implicits.

(** ** A test double for the collaborators

    The world is the list of socket events still to come; a crypto context
    holds one number.  Every call succeeds except where a knob says
    otherwise; the key derivation writes into every context. *)

Record knobs : Type := {
  k_malloc : bool;
  k_socket_open : bool;
  k_buffer_add_u8 : Z;
  k_dh_build_k : Z;
  k_signature_verify : Z;
  k_past_nul : list ascii
}.

Definition all_fine : knobs :=
  {| k_malloc := true; k_socket_open := true; k_buffer_add_u8 := 0;
     k_dh_build_k := 0; k_signature_verify := 0; k_past_nul := [] |}.

Definition test_extern : Type := extern (list socket_event) Z.

Definition next_event (e : test_extern) : option socket_event * test_extern :=
  match world e with
  | [] => (None, e)
  | ev :: evs => (Some ev, {| crypto_mem := crypto_mem e; world := evs |})
  end.

Definition write_keys (e : test_extern) : test_extern :=
  {| crypto_mem := fun _ => 7; world := world e |}.

Definition test_double (k : knobs) : collaborators (list socket_event) Z :=
  {| CLIENTBANNER1 := chars "SSH-1.5-libssh-0.4.0";
     CLIENTBANNER2 := chars "SSH-2.0-libssh-0.4.0";
     SSH_SOCKET_CONNECTED_OK := 1;
     htonl := fun z => z;
     crypto_zero := 0;
     malloc_ok := fun e => (k_malloc k, e);
     bytes_past_nul := fun _ => k_past_nul k;
     ssh_init := fun e => (0, e);
     ssh_set_error_NULL := fun _ => true;
     ssh_socket_set_callbacks := fun e => e;
     ssh_socket_set_fd := fun _ e => e;
     ssh_socket_connect := fun _ _ _ e => (0, e);
     ssh_socket_is_open := fun _ => k_socket_open k;
     ssh_socket_close := fun e => e;
     ssh_socket_write := fun _ e => (0, e);
     ssh_socket_blocking_flush := fun e => (0, e);
     ssh_socket_poll := next_event;
     ssh_socket_consumed := fun _ _ e => e;
     buffer_add_u8 := fun _ e => (k_buffer_add_u8 k, e);
     buffer_add_u32 := fun _ e => (0, e);
     buffer_add_ssh_string := fun _ e => (0, e);
     buffer_get_ssh_string := fun e => (Some (chars "blob"), e);
     packet_send := fun e => (0, e);
     packet_flush := fun _ e => (0, e);
     packet_wait := fun _ _ e => (0, e);
     ssh_packet_set_default_callbacks := fun e => e;
     ssh_packet_socket_callback := fun data e => (Z.of_nat (length data), e);
     dh_generate_x := fun e => (0, e);
     dh_generate_e := fun e => (0, e);
     dh_get_e := fun e => (Some (chars "e"), e);
     dh_import_pubkey := fun _ e => e;
     dh_import_f := fun _ e => (0, e);
     dh_build_k := fun e => (k_dh_build_k k, e);
     make_sessionid := fun e => (0, e);
     generate_session_keys := fun e => (0, write_keys e);
     signature_verify := fun _ e => (k_signature_verify k, e);
     crypt_set_algorithms := fun e => (0, e);
     ssh_get_kex := fun _ e => (0, e);
     ssh_list_kex := fun e => e;
     set_kex := fun e => (0, e);
     ssh_send_kex := fun _ e => (0, e);
     ssh_get_kex1 := fun e => (0, e) |}.

(** A session as [ssh_new] leaves it: no current crypto context, an empty
    next one (the object 0), both protocol versions allowed.  It is on the
    descriptor 3, with the socket events [events] to come. *)
Definition new_session (events : list socket_event)
  : session (list socket_event) Z :=
  {| alive := 0; client := 0; connected := 0;
     fd := 3; host := None; port := 22; bindaddr := None;
     session_state := SSH_SESSION_STATE_NONE;
     dh_handshake_state := DH_STATE_INIT;
     version := 0; ssh1 := 1; ssh2 := 1; openssh := 0;
     serverbanner := None; clientbanner := None; xbanner := None;
     banner := None;
     current_crypto := None; next_crypto := Some 0%nat;
     dh_server_signature := None;
     socket_callbacks :=
       {| cb_data := None; cb_connected := false; cb_exception := false;
          cb_user := false |};
     connect_status_function := true;
     error := None;
     status_log := [];
     strings := ∅;
     cryptos := {[ 0%nat := Crypto_live ]};
     ext := {| crypto_mem := fun _ => 0; world := events |} |}.

(** Variants of the double: one call fails. *)
Definition add_u8_fails : knobs :=
  {| k_malloc := true; k_socket_open := true; k_buffer_add_u8 := -1;
     k_dh_build_k := 0; k_signature_verify := 0; k_past_nul := [] |}.

Definition build_k_fails : knobs :=
  {| k_malloc := true; k_socket_open := true; k_buffer_add_u8 := 0;
     k_dh_build_k := -1; k_signature_verify := 0; k_past_nul := [] |}.


(** The session once the socket is connected, waiting for the banner. *)
Definition session_awaiting_banner : session (list socket_event) Z :=
  set_session_state SSH_SESSION_STATE_SOCKET_CONNECTED
    (set_alive 1 (new_session [])).

(** The session when [callback_receive_banner] has stored [banner]. *)
Definition session_with_banner (banner : list ascii)
  : session (list socket_event) Z :=
  set_session_state SSH_SESSION_STATE_BANNER_RECEIVED
    (set_serverbanner (Some banner) (set_alive 1 (new_session []))).

(** The session in the key exchange of version 2, in the state [st] of the
    handshake, with a current crypto context (the object 1). *)
Definition session_in_kex (st : ssh_dh_state_e)
  : session (list socket_event) Z :=
  set_dh_handshake_state st
    (set_session_state SSH_SESSION_STATE_INITIAL_KEX
       (set_version 2
          (set_current_crypto (Some 1%nat)
             (set_cryptos {[ 0%nat := Crypto_live; 1%nat := Crypto_live ]}
                (set_alive 1 (new_session [])))))).

(** ** The version number as the specification reads it

    "parse two decimal integers starting at offsets +8 and +10 (one-digit
    fields) as major and minor; store as (major<<16)|(minor<<8)", and 0
    without "OpenSSH". *)

Definition one_digit_field (banner : list ascii) (i : nat) : Z :=
  match digit_val (char_at banner i) with
  | Some d => d
  | None => 0
  end.

Definition openssh_version_one_digit_fields (banner : list ascii) : Z :=
  match strstr banner (chars "OpenSSH") with
  | Some k =>
      Z.lor (Z.shiftl (one_digit_field banner (k + 8)) 16)
            (Z.shiftl (one_digit_field banner (k + 10)) 8)
  | None => 0
  end.

(** ** Notions used in the further properties *)

(** The order of the states of the handshake. *)
Definition dh_rank (st : ssh_dh_state_e) : nat :=
  match st with
  | DH_STATE_INIT => 0
  | DH_STATE_INIT_TO_SEND => 1
  | DH_STATE_INIT_SENT => 2
  | DH_STATE_NEWKEYS_TO_SEND => 3
  | DH_STATE_NEWKEYS_SENT => 4
  | DH_STATE_FINISHED => 5
  end.

(** The fields of the session that the handshake has no business with:
    all but the state of the collaborators, the two heaps, the last error,
    the stored signature, the state of the handshake and the two crypto
    slots. *)
Definition kept {W C : Type} (s : session W C) :=
  (alive s, client s, connected s, fd s, host s, port s, bindaddr s,
   session_state s, version s, ssh1 s, ssh2 s, openssh s, serverbanner s,
   clientbanner s, xbanner s, banner s, socket_callbacks s,
   connect_status_function s, status_log s).

Definition dh_touch {W C : Type} (s s' : session W C) : Prop :=
  kept s' = kept s.

(** How a call of the handshake that began in [s0] ends. *)
Definition dh_result {W C : Type} (s0 : session W C) (r : Z)
    (s' : session W C) : Prop :=
  dh_touch s0 s'
  ∧ (dh_rank (dh_handshake_state s0) ≤ dh_rank (dh_handshake_state s'))%nat
  ∧ (r = SSH_OK ↔ dh_handshake_state s' = DH_STATE_FINISHED)
  ∧ (r = SSH_OK → dh_server_signature s' = None).

(** The banner that [ssh_send_banner] chooses: the one configured in
    [xbanner], else [CLIENTBANNER1] for version 1 and [CLIENTBANNER2] for
    every other version. *)
Definition chosen_banner {W C : Type} (X : collaborators W C)
    (s : session W C) : list ascii :=
  match xbanner s with
  | Some b => b
  | None => if version s =? 1 then CLIENTBANNER1 X else CLIENTBANNER2 X
  end.

(** What holds of the session while [ssh_connect] drives it: it is a
    client; it is alive unless it is in [ERROR]; from [INITIAL_KEX] on a
    version is chosen and the banner of the server is there; in
    [AUTHENTICATING] it is connected. *)
Definition connect_inv {W C : Type} (s : session W C) : Prop :=
  client s = 1
  ∧ (session_state s ≠ SSH_SESSION_STATE_ERROR → alive s = 1)
  ∧ (session_state s = SSH_SESSION_STATE_INITIAL_KEX
     ∨ session_state s = SSH_SESSION_STATE_AUTHENTICATING →
     (version s = 1 ∨ version s = 2) ∧ is_Some (serverbanner s))
  ∧ (session_state s = SSH_SESSION_STATE_AUTHENTICATING → connected s = 1).

(** ** More sessions for the test double *)

(** The session with the banner [b] chosen by the application
    ([SSH_OPTIONS_BANNER]). *)
Definition session_with_xbanner (b : list ascii)
  : session (list socket_event) Z :=
  let n := set_alive 1 (new_session []) in
  {| alive := alive n; client := client n; connected := connected n;
     fd := fd n; host := host n; port := port n; bindaddr := bindaddr n;
     session_state := session_state n;
     dh_handshake_state := dh_handshake_state n; version := version n;
     ssh1 := ssh1 n; ssh2 := ssh2 n; openssh := openssh n;
     serverbanner := serverbanner n; clientbanner := clientbanner n;
     xbanner := Some b; banner := banner n;
     current_crypto := current_crypto n; next_crypto := next_crypto n;
     dh_server_signature := dh_server_signature n;
     socket_callbacks := socket_callbacks n;
     connect_status_function := connect_status_function n;
     error := error n; status_log := status_log n;
     strings := strings n; cryptos := cryptos n; ext := ext n |}.

(** A new session with no descriptor and the host name [h] (NULL for
    [None]). *)
Definition session_without_descriptor (h : option (list ascii))
  : session (list socket_event) Z :=
  let n := new_session [] in
  {| alive := alive n; client := client n; connected := connected n;
     fd := -1; host := h; port := port n; bindaddr := bindaddr n;
     session_state := session_state n;
     dh_handshake_state := dh_handshake_state n; version := version n;
     ssh1 := ssh1 n; ssh2 := ssh2 n; openssh := openssh n;
     serverbanner := serverbanner n; clientbanner := clientbanner n;
     xbanner := xbanner n; banner := banner n;
     current_crypto := current_crypto n; next_crypto := next_crypto n;
     dh_server_signature := dh_server_signature n;
     socket_callbacks := socket_callbacks n;
     connect_status_function := connect_status_function n;
     error := error n; status_log := status_log n;
     strings := strings n; cryptos := cryptos n; ext := ext n |}.

(** The double with the byte '9' in memory behind the NUL of the server
    banner. *)
Definition nine_past_nul : knobs :=
  {| k_malloc := true; k_socket_open := true; k_buffer_add_u8 := 0;
     k_dh_build_k := 0; k_signature_verify := 0; k_past_nul := chars "9" |}.

(** ** Notions used in the statement of C7 *)



(** * Properties *)

Section Properties.

Context {W C : Type} (X : collaborators W C).

Implicit Types (s : session W C) (data banner : list ascii).

(** ** The banner reader *)

Lemma cr_to_nul_not_LF c : c ≠ LF → Ascii.eqb (cr_to_nul c) LF = false.
Proof.
  intros Hc. unfold cr_to_nul.
  destruct (Ascii.eqb c CR); [reflexivity | by apply Ascii.eqb_neq].
Qed.

(** Without a line feed the loop runs to the end of the data, as long as
    the index stays below 128. *)
Lemma receive_banner_loop_no_LF rest :
  ∀ before i s,
    (i + length rest ≤ 128)%nat → LF ∉ rest →
    receive_banner_loop X before rest i s
    = (0, before ++ map cr_to_nul rest, s).
Proof.
  induction rest as [|c rest IH]; intros before i s Hlen Hno; simpl.
  - by rewrite app_nil_r.
  - apply not_elem_of_cons in Hno as [Hc Hno].
    fold (cr_to_nul c). rewrite (cr_to_nul_not_LF c) by congruence.
    simpl in Hlen.
    replace (127 <? i)%nat with false by (symmetry; apply Nat.ltb_ge; lia).
    rewrite IH by (done || lia).
    by rewrite <- app_assoc.
Qed.

(** The loop stops with the error at index 128. *)
Lemma receive_banner_loop_too_large rest :
  ∀ before i s,
    (i ≤ 128)%nat → (129 ≤ i + length rest)%nat →
    LF ∉ take (129 - i) rest →
    ∃ buffer,
      receive_banner_loop X before rest i s
      = (0, buffer,
         ssh_set_error Too_large_banner
           (set_session_state SSH_SESSION_STATE_ERROR s)).
Proof.
  induction rest as [|c rest IH]; intros before i s Hi Hlen Hno; simpl.
  - simpl in Hlen. lia.
  - simpl in Hlen.
    destruct (129 - i)%nat as [|n] eqn:Hn; [lia|].
    simpl in Hno. apply not_elem_of_cons in Hno as [Hc Hno].
    fold (cr_to_nul c). rewrite (cr_to_nul_not_LF c) by congruence.
    destruct (127 <? i)%nat eqn:Hlt.
    + eauto.
    + apply Nat.ltb_ge in Hlt.
      apply IH; [lia | lia |].
      by replace (129 - S i)%nat with n by lia.
Qed.

(** The loop finds the line feed behind [line]. *)
Lemma receive_banner_loop_LF line :
  ∀ before rest i s,
    (i + length line ≤ 128)%nat → LF ∉ line →
    receive_banner_loop X before (line ++ LF :: rest) i s
    = let buffer := (before ++ map cr_to_nul line) ++ NUL :: rest in
      let '(str, s) := strdup X buffer s in
      let s := set_serverbanner str s in
      let s := set_session_state SSH_SESSION_STATE_BANNER_RECEIVED s in
      (Z.of_nat (i + length line) + 1, buffer, connection_callback X s).
Proof.
  induction line as [|c line IH]; intros before rest i s Hlen Hno.
  - simpl. rewrite app_nil_r, Nat.add_0_r.
    by destruct (strdup X (before ++ NUL :: rest) s).
  - apply not_elem_of_cons in Hno as [Hc Hno]. simpl in Hlen.
    cbn [app receive_banner_loop].
    fold (cr_to_nul c). rewrite (cr_to_nul_not_LF c) by congruence.
    replace (127 <? i)%nat with false by (symmetry; apply Nat.ltb_ge; lia).
    rewrite IH by (done || lia).
    cbn [map length]. rewrite <- !app_assoc. cbn [app].
    by replace (S i + length line)%nat with (i + S (length line))%nat by lia.
Qed.

Lemma c_str_app_NUL (l rest : list ascii) :
  c_str (l ++ NUL :: rest) = c_str l.
Proof.
  induction l as [|c l IH]; simpl; [done|].
  destruct (Ascii.eqb c NUL); [done | by rewrite IH].
Qed.

(** ** What the callees of [connection_callback] leave alone *)

Lemma ssh_send_banner_client s :
  ∃ e copy,
    (ssh_send_banner X s 0).2 = set_ext e (set_clientbanner copy s).
Proof.
  unfold ssh_send_banner, strdup, ext_rc.
  destruct (malloc_ok X (ext s)) as [[] e1]; cbn.
  - destruct (ssh_socket_write X _ e1) as [r2 e2]; cbn.
    destruct (r2 =? SSH_ERROR); cbn; [by eexists _, _|].
    destruct (ssh_socket_blocking_flush X e2) as [r3 e3]; cbn.
    destruct (r3 =? SSH_OK); cbn; by eexists _, _.
  - by eexists _, _.
Qed.

Lemma ssh_analyze_banner_changes s ssh1 ssh2 :
  ∃ err v,
    (ssh_analyze_banner X s ssh1 ssh2).2 = set_openssh v (set_error err s).
Proof.
  unfold ssh_analyze_banner, ssh_set_error.
  repeat case_match; simplify_eq; cbn;
    try (by eexists _, _);
    by exists (error s), (openssh s); destruct s.
Qed.

Lemma connection_callback_banner_received_serverbanner s :
  session_state s = SSH_SESSION_STATE_BANNER_RECEIVED →
  serverbanner (connection_callback X s) = serverbanner s.
Proof.
  intros Hst. unfold connection_callback. rewrite Hst.
  destruct (serverbanner s) as [banner|] eqn:Hb; [|by cbn].
  destruct (ssh_analyze_banner_changes (set_status 4 s) 0 0) as (err & v & Ha).
  destruct (ssh_analyze_banner X (set_status 4 s) 0 0) as [[[rc f1] f2] s1].
  cbn in Ha. subst s1.
  assert (Hs : serverbanner (set_status 4 s) = Some banner).
  { unfold set_status. by destruct (connect_status_function s). }
  destruct (rc <? 0); [by cbn|].
  match goal with |- context [match ?c with Some _ => _ | None => _ end] =>
    destruct c as [chosen|] end; [|by cbn].
  match goal with |- context [ssh_send_banner X ?s0 0] =>
    destruct (ssh_send_banner_client s0) as (e & copy & Hsend);
    destruct (ssh_send_banner X s0 0) as [r s2] end.
  cbn in Hsend. subst s2.
  unfold set_status at 1.
  match goal with |- context [if ?b then _ else _] => destruct b end; by cbn.
Qed.

Lemma set_status_eq tenths s :
  ∃ l, set_status tenths s = set_status_log l s.
Proof.
  unfold set_status. destruct (connect_status_function s); [by eexists|].
  exists (status_log s). by destruct s.
Qed.

(** On a banner that starts with "SSH-1.99-" the analysis succeeds with
    both flags set; it can only have written [openssh]. *)
Lemma ssh_analyze_banner_1_99 s rest ssh1 ssh2 :
  serverbanner s = Some (chars "SSH-1.99-" ++ rest) →
  ∃ v, ssh_analyze_banner X s ssh1 ssh2 = (0, 1, 1, set_openssh v s).
Proof.
  intros Hb. unfold ssh_analyze_banner. rewrite Hb. cbn.
  match goal with
  | |- context [match ?found with Some _ => _ | None => _ end] =>
      destruct found
  end; [by eexists|].
  exists (openssh s). by destruct s.
Qed.

(** ** C3 *)

(** C3. For every input of at most 128 bytes that contains no line feed,
    [callback_receive_banner] returns 0 (the banner is not complete) and
    leaves the session as it found it: [session_state], [serverbanner] and
    every other field. *)
Theorem callback_receive_banner_incomplete data s :
  (length data ≤ 128)%nat → LF ∉ data →
  let '(ret, _, s') := callback_receive_banner X data s in
  ret = 0 ∧ session_state s' = session_state s
  ∧ serverbanner s' = serverbanner s ∧ s' = s.
Proof.
  intros Hlen Hno. unfold callback_receive_banner.
  by rewrite receive_banner_loop_no_LF.
Qed.

(** ** C2 *)

(** C2, as amended.  An input whose first 129 bytes contain no line feed
    fails: the callback returns 0, the session is in [ERROR] and the error
    is "too large banner".  An input of exactly 128 bytes without a line
    feed is not an error: the callback returns 0 and the session is as it
    was, its state and its last error included.  A line of 127 bytes
    followed by a line feed succeeds: the callback returns 128 and the
    banner is stored, the C string of the line with each CR replaced by
    NUL, provided [strdup] finds the memory for it. *)
Theorem callback_receive_banner_boundary :
  (∀ data s,
     (129 ≤ length data)%nat → LF ∉ take 129 data →
     let '(ret, _, s') := callback_receive_banner X data s in
     ret = 0 ∧ session_state s' = SSH_SESSION_STATE_ERROR
     ∧ error s' = Some Too_large_banner)
  ∧ (∀ data s,
       length data = 128%nat → LF ∉ data →
       let '(ret, _, s') := callback_receive_banner X data s in
       ret = 0 ∧ session_state s' = session_state s
       ∧ error s' = error s ∧ s' = s)
  ∧ (∀ line rest s,
       length line = 127%nat → LF ∉ line →
       let '(ret, _, s') :=
         callback_receive_banner X (line ++ LF :: rest) s in
       ret = 128
       ∧ serverbanner s'
         = if (malloc_ok X (ext s)).1
           then Some (c_str (map cr_to_nul line)) else None).
Proof.
  split; [|split].
  - intros data s Hlen Hno. unfold callback_receive_banner.
    destruct (receive_banner_loop_too_large data [] 0%nat s)
      as [buffer ->]; [lia | lia | done | done].
  - intros data s Hlen Hno. unfold callback_receive_banner.
    rewrite receive_banner_loop_no_LF by (done || lia). done.
  - intros line rest s Hlen Hno. unfold callback_receive_banner.
    rewrite receive_banner_loop_LF by (done || lia).
    unfold strdup, ext_rc. cbn [app].
    destruct (malloc_ok X (ext s)) as [ok e]. cbn [fst].
    split; [lia|].
    rewrite connection_callback_banner_received_serverbanner by done.
    cbn. by rewrite c_str_app_NUL.
Qed.

(** ** C10 *)

(** C10. The accessors tolerate the null session: for it
    [ssh_get_openssh_version] returns 0 and [ssh_get_issue_banner] returns
    no banner, and nothing else happens. *)
Theorem accessors_tolerate_null_session :
  ssh_get_openssh_version (W:=W) (C:=C) None = (0, None)
  ∧ ssh_get_issue_banner X None = (None, None).
Proof. done. Qed.

(** ** C4 *)

(** C4. For every received banner that starts with "SSH-1.99-" the
    analysis succeeds and sets both flags, and [connection_callback]
    resolves the version: 2 when SSHv2 is enabled locally, else 1 when
    SSHv1 is, else the session fails with "No version of SSH protocol
    usable" and ends in [ERROR]. *)
Theorem banner_1_99_resolves_version s rest :
  session_state s = SSH_SESSION_STATE_BANNER_RECEIVED →
  serverbanner s = Some (chars "SSH-1.99-" ++ rest) →
  (∀ ssh1 ssh2,
     let '(rc, server_ssh1, server_ssh2, _) :=
       ssh_analyze_banner X s ssh1 ssh2 in
     rc = 0 ∧ server_ssh1 = 1 ∧ server_ssh2 = 1)
  ∧ let s' := connection_callback X s in
    (ssh2 s ≠ 0 →
       version s' = 2
       ∧ session_state s' = SSH_SESSION_STATE_INITIAL_KEX)
    ∧ (ssh2 s = 0 → ssh1 s ≠ 0 →
       version s' = 1
       ∧ session_state s' = SSH_SESSION_STATE_INITIAL_KEX)
    ∧ (ssh2 s = 0 → ssh1 s = 0 →
       session_state s' = SSH_SESSION_STATE_ERROR
       ∧ error s' = Some (No_version_usable (chars "SSH-1.99-" ++ rest))
       ∧ version s' = version s).
Proof.
  intros Hst Hb. split.
  { intros a b. by destruct (ssh_analyze_banner_1_99 s rest a b Hb) as [v ->]. }
  unfold connection_callback. rewrite Hst, Hb.
  destruct (set_status_eq 4 s) as [l ->].
  destruct (ssh_analyze_banner_1_99 (set_status_log l s) rest 0 0 Hb)
    as [v ->].
  cbn -[chars].
  destruct (ssh2 s =? 0) eqn:H2; cbn -[chars].
  - apply Z.eqb_eq in H2.
    destruct (ssh1 s =? 0) eqn:H1; cbn -[chars].
    + apply Z.eqb_eq in H1. repeat split; intros; done.
    + apply Z.eqb_neq in H1.
      match goal with |- context [ssh_send_banner X ?s0 0] =>
        destruct (ssh_send_banner_client s0) as (e & copy & Hsend);
        destruct (ssh_send_banner X s0 0) as [r s2] end.
      cbn in Hsend. subst s2.
      match goal with |- context [set_status 5 ?s0] =>
        destruct (set_status_eq 5 s0) as [l5 ->] end.
      cbn. repeat split; intros; done.
  - apply Z.eqb_neq in H2.
    match goal with |- context [ssh_send_banner X ?s0 0] =>
      destruct (ssh_send_banner_client s0) as (e & copy & Hsend);
      destruct (ssh_send_banner X s0 0) as [r s2] end.
    cbn in Hsend. subst s2.
    match goal with |- context [set_status 5 ?s0] =>
      destruct (set_status_eq 5 s0) as [l5 ->] end.
    cbn. repeat split; intros; done.
Qed.

(** ** [strtol] on what follows "OpenSSH" *)

Lemma digit_val_facts c d :
  digit_val c = Some d →
  0 ≤ d ≤ 9 ∧ isspace c = false
  ∧ Ascii.eqb c "-" = false ∧ Ascii.eqb c "+" = false.
Proof.
  destruct c as [[] [] [] [] [] [] [] []]; vm_compute; intros [= <-];
    repeat split; discriminate.
Qed.

(** A digit followed by something that is not a digit is read as that
    digit. *)
Lemma strtol_single_digit (mem : list ascii) :
  ∀ (i : nat) d,
    digit_val (char_at mem i) = Some d →
    digit_val (char_at mem (S i)) = None →
    strtol (drop i mem) = d.
Proof.
  induction mem as [|c mem IH]; intros i d Hd Hnext.
  - by destruct i.
  - destruct i as [|i]; [|by apply IH].
    cbn in Hd. destruct (digit_val_facts c d Hd) as (Hr & Hsp & Hm & Hp).
    unfold strtol. cbn [drop skip_space]. rewrite Hsp, Hm, Hp.
    cbn [read_digits]. rewrite Hd.
    assert (Hstop : read_digits (0 * 10 + d) mem = d).
    { destruct mem as [|c' mem]; cbn; [lia|].
      cbn in Hnext. rewrite Hnext. lia. }
    rewrite Hstop. unfold LONG_MAX. lia.
Qed.

(** A run of digits is read to its end. *)
Lemma read_digits_run (ds rest : list ascii) :
  ∀ acc,
    Forall (λ c, is_Some (digit_val c)) ds →
    (∀ c rest', rest = c :: rest' → digit_val c = None) →
    read_digits acc (ds ++ rest) = read_digits acc ds.
Proof.
  induction ds as [|c ds IH]; intros acc Hds Hstop.
  - destruct rest as [|c rest']; cbn; [done|].
    by rewrite (Hstop c rest').
  - apply Forall_cons in Hds as [[d Hd] Hds]. cbn. rewrite Hd.
    by apply IH.
Qed.

(** A run of digits is read whole, whatever its length. *)
Lemma strtol_digit_run (c : ascii) (ds rest : list ascii) :
  Forall (λ c, is_Some (digit_val c)) (c :: ds) →
  (∀ c' rest', rest = c' :: rest' → digit_val c' = None) →
  strtol ((c :: ds) ++ rest) = Z.min LONG_MAX (read_digits 0 (c :: ds)).
Proof.
  intros Hds Hstop.
  pose proof Hds as [[d Hd] _]%Forall_cons.
  destruct (digit_val_facts c d Hd) as (_ & Hsp & Hm & Hp).
  unfold strtol. cbn [app skip_space]. rewrite Hsp, Hm, Hp.
  change (c :: ds ++ rest) with ((c :: ds) ++ rest).
  by rewrite (read_digits_run (c :: ds) rest 0 Hds Hstop).
Qed.

Lemma version_int_of_digits d1 d2 :
  0 ≤ d1 ≤ 9 → 0 ≤ d2 ≤ 9 →
  SSH_VERSION_INT (to_int d1) (to_int d2) 0
  = Z.lor (Z.shiftl d1 16) (Z.shiftl d2 8).
Proof.
  intros H1 H2.
  assert (Hc1 : d1 = 0 ∨ d1 = 1 ∨ d1 = 2 ∨ d1 = 3 ∨ d1 = 4 ∨ d1 = 5
                ∨ d1 = 6 ∨ d1 = 7 ∨ d1 = 8 ∨ d1 = 9) by lia.
  assert (Hc2 : d2 = 0 ∨ d2 = 1 ∨ d2 = 2 ∨ d2 = 3 ∨ d2 = 4 ∨ d2 = 5
                ∨ d2 = 6 ∨ d2 = 7 ∨ d2 = 8 ∨ d2 = 9) by lia.
  clear H1 H2.
  repeat (destruct Hc1 as [->|Hc1]); try subst d1;
    repeat (destruct Hc2 as [->|Hc2]); try subst d2; reflexivity.
Qed.

(** ** The version of OpenSSH *)

(** What one call of the analysis does to [session->openssh].  For every
    banner that the analysis accepts (it starts with "SSH-" and its byte 4
    is '1' or '2') and that contains "OpenSSH", at offset [k]: [major] and
    [minor] are what [strtol] reads at the offsets [k + 8] and [k + 10],
    and [session->openssh] becomes [SSH_VERSION_INT(major, minor, 0)],
    which the accessor returns.  Where one digit stands at each offset and
    no digit follows it, this is [(major<<16)|(minor<<8)] of the two
    digits.  For a banner without "OpenSSH", and for a banner that the
    analysis rejects, the field is not written: it keeps the value it
    had. *)
Lemma ssh_analyze_banner_openssh_version s banner ssh1 ssh2 :
  serverbanner s = Some banner →
  let mem := banner ++ NUL :: bytes_past_nul X (ext s) in
  let '(rc, _, _, s') := ssh_analyze_banner X s ssh1 ssh2 in
  let reported := (ssh_get_openssh_version (Some s')).1 in
  (∀ k, rc = 0 → strstr banner (chars "OpenSSH") = Some k →
     reported
     = SSH_VERSION_INT (to_int (strtol (drop (k + 8) mem)))
                       (to_int (strtol (drop (k + 10) mem))) 0)
  ∧ (∀ k major minor,
       rc = 0 → strstr banner (chars "OpenSSH") = Some k →
       digit_val (char_at mem (k + 8)) = Some major →
       digit_val (char_at mem (k + 9)) = None →
       digit_val (char_at mem (k + 10)) = Some minor →
       digit_val (char_at mem (k + 11)) = None →
       reported = Z.lor (Z.shiftl major 16) (Z.shiftl minor 8))
  ∧ (strstr banner (chars "OpenSSH") = None ∨ rc ≠ 0 →
     reported = openssh s).
Proof.
  intros Hb mem. unfold ssh_analyze_banner. rewrite Hb.
  cbv beta iota. fold mem.
  destruct (negb (strncmp_eq banner (chars "SSH-") 4)).
  { cbn. repeat split; intros; done. }
  match goal with
  | |- context [match ?flags with Some _ => _ | None => _ end] =>
      destruct flags as [[f1 f2]|]
  end.
  2: { cbn. repeat split; intros; done. }
  destruct (strstr banner (chars "OpenSSH")) as [found|] eqn:Hfound.
  - cbn [ssh_get_openssh_version fst openssh set_openssh].
    split; [by intros k _ [= <-]|].
    split; [|by intros [[=]|]].
    intros k major minor _ [= <-] Hd8 Hn9 Hd10 Hn11.
    replace (found + 9)%nat with (S (found + 8)) in Hn9 by lia.
    replace (found + 11)%nat with (S (found + 10)) in Hn11 by lia.
    rewrite (strtol_single_digit mem (found + 8) major Hd8 Hn9).
    rewrite (strtol_single_digit mem (found + 10) minor Hd10 Hn11).
    apply version_int_of_digits.
    + by destruct (digit_val_facts _ _ Hd8).
    + by destruct (digit_val_facts _ _ Hd10).
  - cbn. repeat split; intros; done.
Qed.

(** ** The key exchange *)

Ltac fields :=
  cbn [alive client connected fd host port bindaddr session_state
       dh_handshake_state version ssh1 ssh2 openssh serverbanner
       clientbanner xbanner banner current_crypto next_crypto
       dh_server_signature socket_callbacks connect_status_function error
       status_log strings cryptos ext
       set_alive set_client set_connected set_session_state
       set_dh_handshake_state set_version set_openssh set_serverbanner
       set_clientbanner set_current_crypto set_next_crypto
       set_dh_server_signature set_socket_callbacks set_error
       set_status_log set_strings set_cryptos set_ext
       ssh_set_error ext_do fst snd] in *.

Lemma ext_rc_eq {A : Type} (f : extern W C → A * extern W C) s :
  ext_rc f s = ((f (ext s)).1, set_ext (f (ext s)).2 s).
Proof. unfold ext_rc. by destruct (f (ext s)). Qed.

Lemma set_strings_id s : set_strings (strings s) s = s.
Proof. by destruct s. Qed.

Lemma string_burn_frame p s : ∃ st, string_burn p s = set_strings st s.
Proof.
  unfold string_burn. repeat case_match; try (by eexists).
  all: exists (strings s); by rewrite set_strings_id.
Qed.

Lemma string_free_frame p s : ∃ st, string_free p s = set_strings st s.
Proof.
  unfold string_free. repeat case_match; try (by eexists).
  all: exists (strings s); by rewrite set_strings_id.
Qed.

Lemma burn_free_frame p s :
  ∃ st, string_free p (string_burn p s) = set_strings st s.
Proof.
  destruct (string_burn_frame p s) as [st1 ->].
  destruct (string_free_frame p (set_strings st1 s)) as [st2 ->].
  by exists st2.
Qed.

Lemma burn_and_free_frame p s : ∃ st, burn_and_free p s = set_strings st s.
Proof.
  destruct p as [p|]; cbn; [apply burn_free_frame|].
  exists (strings s). by rewrite set_strings_id.
Qed.

Lemma dh_error_frame e f pubkey signature rc s :
  ∃ st, dh_error e f pubkey signature rc s = (rc, set_strings st s).
Proof.
  unfold dh_error.
  destruct (burn_and_free_frame e s) as [st1 ->].
  destruct (burn_and_free_frame f (set_strings st1 s)) as [st2 ->].
  destruct (burn_and_free_frame pubkey (set_strings st2 (set_strings st1 s)))
    as [st3 ->].
  match goal with |- context [burn_and_free signature ?s0] =>
    destruct (burn_and_free_frame signature s0) as [st4 ->] end.
  by exists st4.
Qed.

Lemma get_string_frame f s :
  ∃ p st e, get_string f s = (p, set_strings st (set_ext e s)).
Proof.
  unfold get_string, string_new. rewrite ext_rc_eq.
  destruct (f (ext s)) as [[d|] e]; cbn [fst snd].
  - by eexists _, _, _.
  - by exists None, (strings s), e.
Qed.

(** An error exit leaves the state of the handshake as it is. *)
Lemma dh_error_outcome s0 e f pubkey signature rc s r s' :
  dh_error e f pubkey signature rc s = (r, s') →
  dh_handshake_state s ≠ DH_STATE_FINISHED →
  dh_outcome X s0 r s'.
Proof.
  destruct (dh_error_frame e f pubkey signature rc s) as [st ->].
  intros [= <- <-] Hst. by left.
Qed.

Lemma dh_error_state e f pubkey signature rc s r s' :
  dh_error e f pubkey signature rc s = (r, s') →
  dh_handshake_state s' = dh_handshake_state s.
Proof.
  destruct (dh_error_frame e f pubkey signature rc s) as [st ->].
  by intros [= <- <-].
Qed.

Lemma crypto_swap_facts s0 (cur nxt : option nat)
    (m : gmap nat crypto_cell) :
  let m1 := match cur with
            | Some c => <[c := Crypto_freed]> m
            | None => m
            end in
  let q := fresh (dom m1) in
  (∀ p, cur = Some p → <[q := Crypto_live]> m1 !! p = Some Crypto_freed)
  ∧ m !! q = None
  ∧ <[q := Crypto_live]> m1 !! q = Some Crypto_live.
Proof.
  intros m1 q.
  assert (Hq : q ∉ dom m1) by apply is_fresh.
  split; [|split].
  - intros p ->. subst m1. cbn in *.
    rewrite lookup_insert_ne; [by rewrite lookup_insert_eq|].
    intros ->. apply Hq. apply elem_of_dom. rewrite lookup_insert_eq. eauto.
  - apply not_elem_of_dom. intros Hin. apply Hq. subst m1.
    destruct cur; [|done]. rewrite dom_insert_L. set_solver.
  - by rewrite lookup_insert_eq.
Qed.

Ltac dh_call :=
  rewrite ext_rc_eq;
  match goal with
  | |- context [set_ext (?call).2 _] =>
      let r := fresh "r" in
      let e := fresh "e" in
      destruct call as [r e]
  end;
  cbn [fst snd].

Ltac dh_branch :=
  match goal with
  | |- context [if ?c then _ else _] => destruct c
  end.

Ltac dh_exit :=
  let Hrun := fresh "Hrun" in
  intros Hrun; eapply dh_error_outcome; [exact Hrun | by fields].

Ltac dh_frame :=
  match goal with
  | |- context [burn_and_free ?p ?s] =>
      let st := fresh "st" in
      destruct (burn_and_free_frame p s) as [st ->]
  | |- context [string_free ?p (string_burn ?p ?s)] =>
      let st := fresh "st" in
      destruct (burn_free_frame p s) as [st ->]
  | |- context [get_string ?f ?s] =>
      let p := fresh "p" in
      let st := fresh "st" in
      let e := fresh "e" in
      destruct (get_string_frame f s) as (p & st & e & ->)
  end.

Lemma dh_case_NEWKEYS_SENT_outcome s0 e f pubkey signature rc s r s' :
  crypto_same s0 s →
  dh_handshake_state s ≠ DH_STATE_FINISHED →
  dh_case_NEWKEYS_SENT X e f pubkey signature rc s = (r, s') →
  dh_outcome X s0 r s'.
Proof.
  intros (Hcur & Hnxt & Hmap) Hst. unfold dh_case_NEWKEYS_SENT.
  dh_call. dh_branch; [dh_exit|].
  dh_call. dh_branch; [dh_exit|].
  dh_call. dh_branch; [dh_exit|].
  dh_call. dh_branch; [dh_exit|].
  dh_call. dh_branch; [dh_exit|].
  dh_frame. unfold crypto_new, crypto_free.
  fields. rewrite Hcur. unfold dh_outcome, swapped.
  destruct (crypto_swap_facts s0 (current_crypto s0) (next_crypto s0)
              (cryptos s0)) as (Hfreed & Hnew & Hlive).
  destruct (current_crypto s0) as [c|]; fields;
    rewrite ext_rc_eq;
    (match goal with
     | |- context [set_ext (?call).2 _] => destruct call as [[] em]
     end);
    cbn [fst snd].
  1, 3: intros [= <- <-]; right; (split; [done|]); (split; [done|]);
    fields; rewrite ?Hmap, ?Hnxt;
    (split; [done|]); (split; [done|]);
    eexists; (split; [done|]); (split; [done|]); (split; [done|]);
    unfold crypto_wipe; cbn; by case_decide.
  all: intros Hrun; left;
    rewrite (dh_error_state _ _ _ _ _ _ _ _ Hrun); by fields.
Qed.

Lemma dh_case_NEWKEYS_TO_SEND_outcome s0 e f pubkey signature rc s r s' :
  crypto_same s0 s →
  dh_handshake_state s ≠ DH_STATE_FINISHED →
  dh_case_NEWKEYS_TO_SEND X e f pubkey signature rc s = (r, s') →
  dh_outcome X s0 r s'.
Proof.
  intros Hsame Hst. unfold dh_case_NEWKEYS_TO_SEND.
  dh_call. dh_branch; [dh_exit|].
  apply dh_case_NEWKEYS_SENT_outcome; by fields.
Qed.

Lemma dh_case_INIT_SENT_outcome s0 e f pubkey signature rc s r s' :
  crypto_same s0 s →
  dh_handshake_state s ≠ DH_STATE_FINISHED →
  dh_case_INIT_SENT X e f pubkey signature rc s = (r, s') →
  dh_outcome X s0 r s'.
Proof.
  intros Hsame Hst. unfold dh_case_INIT_SENT.
  dh_call. dh_branch; [dh_exit|].
  dh_frame. destruct p as [pubkey_p|]; [|dh_exit].
  dh_frame. destruct p as [f_p|]; [|dh_exit].
  dh_call. dh_branch; [dh_exit|].
  dh_frame.
  dh_frame. destruct p as [signature_p|]; [|dh_exit].
  dh_call. dh_branch; [dh_exit|].
  dh_call. dh_branch; [dh_exit|].
  dh_call. dh_branch; [dh_exit|].
  apply dh_case_NEWKEYS_TO_SEND_outcome; by fields.
Qed.

Lemma dh_case_INIT_TO_SEND_outcome s0 e f pubkey signature rc s r s' :
  crypto_same s0 s →
  dh_handshake_state s ≠ DH_STATE_FINISHED →
  dh_case_INIT_TO_SEND X e f pubkey signature rc s = (r, s') →
  dh_outcome X s0 r s'.
Proof.
  intros Hsame Hst. unfold dh_case_INIT_TO_SEND.
  dh_call. dh_branch; [dh_exit|].
  apply dh_case_INIT_SENT_outcome; by fields.
Qed.

Lemma dh_case_INIT_outcome s0 e f pubkey signature rc s r s' :
  crypto_same s0 s →
  dh_handshake_state s ≠ DH_STATE_FINISHED →
  dh_case_INIT X e f pubkey signature rc s = (r, s') →
  dh_outcome X s0 r s'.
Proof.
  intros Hsame Hst. unfold dh_case_INIT.
  dh_call. dh_branch; [dh_exit|].
  dh_call. dh_branch; [dh_exit|].
  dh_call. dh_branch; [dh_exit|].
  dh_frame. destruct p as [e_p|]; [|dh_exit].
  dh_call. dh_branch; [dh_exit|].
  dh_frame.
  dh_call. dh_branch; [dh_exit|].
  apply dh_case_INIT_TO_SEND_outcome; by fields.
Qed.

(** ** C6 *)

(** C6. For every run of [dh_handshake] that reaches [DH_STATE_FINISHED]:
    the run returns [SSH_OK]; [current_crypto] after the run is the object
    that [next_crypto] was before it (the contexts are not re-bound before
    the NEWKEYS message arrives); the previous [current_crypto], if there
    was one, has been released; and [next_crypto] is a new object, not in
    the heap before, live and with empty contents. *)
Theorem dh_handshake_finished_swaps_crypto s rc s' :
  dh_handshake X s = (rc, s') →
  dh_handshake_state s ≠ DH_STATE_FINISHED →
  dh_handshake_state s' = DH_STATE_FINISHED →
  rc = SSH_OK
  ∧ current_crypto s' = next_crypto s
  ∧ (∀ p, current_crypto s = Some p → cryptos s' !! p = Some Crypto_freed)
  ∧ ∃ q, next_crypto s' = Some q
         ∧ cryptos s !! q = None
         ∧ cryptos s' !! q = Some Crypto_live
         ∧ crypto_mem (ext s') q = crypto_zero X.
Proof.
  intros Hrun Hst Hfin.
  assert (Hout : dh_outcome X s rc s').
  { unfold dh_handshake in Hrun.
    destruct (dh_handshake_state s) eqn:Hs; try done.
    - eapply dh_case_INIT_outcome; [| |exact Hrun]; [done|congruence].
    - eapply dh_case_INIT_TO_SEND_outcome; [| |exact Hrun]; [done|congruence].
    - eapply dh_case_INIT_SENT_outcome; [| |exact Hrun]; [done|congruence].
    - eapply dh_case_NEWKEYS_TO_SEND_outcome; [| |exact Hrun];
        [done|congruence].
    - eapply dh_case_NEWKEYS_SENT_outcome; [| |exact Hrun]; [done|congruence]. }
  destruct Hout as [Hno|(-> & _ & Hswap)]; [done|].
  split; [done|]. exact Hswap.
Qed.


(** ** The strings of the key exchange on the error exits *)

Lemma zeros_length n : zeros (length (zeros n)) = zeros n.
Proof. unfold zeros. by rewrite repeat_length. Qed.

Lemma burn_free_released p s :
  string_free p (string_burn p s) = set_strings (released p (strings s)) s.
Proof.
  unfold string_burn, released.
  destruct (strings s !! p) as [[d|d]|] eqn:Hp.
  - unfold string_free. fields. rewrite lookup_insert_eq. fields.
    by rewrite insert_insert_eq.
  - unfold string_free. rewrite Hp. by rewrite set_strings_id.
  - unfold string_free. rewrite Hp. by rewrite set_strings_id.
Qed.

Lemma burn_and_free_released p s :
  burn_and_free p s = set_strings (released_opt p (strings s)) s.
Proof.
  destruct p as [p|]; cbn; [apply burn_free_released|].
  by rewrite set_strings_id.
Qed.

Lemma cells_ok_refl (m : gmap nat string_cell) : cells_ok m m [].
Proof. intros p Hp. by rewrite Hp. Qed.

Lemma cells_ok_alloc (m0 m : gmap nat string_cell) live q d :
  cells_ok m0 m live → cells_ok m0 (<[q := String_live d]> m) (q :: live).
Proof.
  intros Hok p Hp. specialize (Hok p Hp).
  destruct (decide (q = p)) as [->|Hne].
  - rewrite lookup_insert_eq. apply list_elem_of_here.
  - rewrite lookup_insert_ne by done.
    destruct (m !! p) as [[?|?]|]; try done. by apply list_elem_of_further.
Qed.

Lemma cells_ok_released (m0 m : gmap nat string_cell) live q :
  cells_ok m0 m live →
  cells_ok m0 (released q m) (filter (λ p, p ≠ q) live).
Proof.
  intros Hok p Hp. specialize (Hok p Hp). unfold released.
  destruct (m !! q) as [[d|d]|] eqn:Hq.
  - destruct (decide (q = p)) as [->|Hne].
    + rewrite lookup_insert_eq. by rewrite zeros_length.
    + rewrite lookup_insert_ne by done.
      destruct (m !! p) as [[?|?]|]; try done.
      apply list_elem_of_filter. split; [congruence | done].
  - destruct (m !! p) as [[?|?]|] eqn:Hmp; try done.
    apply list_elem_of_filter. split; [|done]. intros ->. congruence.
  - destruct (m !! p) as [[?|?]|] eqn:Hmp; try done.
    apply list_elem_of_filter. split; [|done]. intros ->. congruence.
Qed.

Lemma cells_ok_released_opt (m0 m : gmap nat string_cell) live q :
  cells_ok m0 m live →
  cells_ok m0 (released_opt q m)
    (filter (λ p, Some p ≠ q) live).
Proof.
  intros Hok. destruct q as [q|]; cbn.
  - intros p Hp. pose proof (cells_ok_released m0 m live q Hok p Hp) as H.
    destruct (released q m !! p) as [[?|?]|]; try done.
    apply list_elem_of_filter in H as [Hne Hin].
    apply list_elem_of_filter. split; [congruence | done].
  - intros p Hp. specialize (Hok p Hp).
    destruct (m !! p) as [[?|?]|]; try done.
    by apply list_elem_of_filter.
Qed.

Lemma cells_ok_weaken (m0 m : gmap nat string_cell) live live' :
  (∀ p, p ∈ live → p ∈ live') → cells_ok m0 m live → cells_ok m0 m live'.
Proof.
  intros Hsub Hok p Hp. specialize (Hok p Hp).
  destruct (m !! p) as [[?|?]|]; try done. by apply Hsub.
Qed.

(** The label [error] releases what the four locals point to. *)
Lemma dh_error_releases m0 live e f pubkey signature rc s r s' :
  cells_ok m0 (strings s) live →
  (∀ p, p ∈ live →
        Some p = e ∨ Some p = f ∨ Some p = pubkey ∨ Some p = signature) →
  dh_error e f pubkey signature rc s = (r, s') →
  cells_ok m0 (strings s') [].
Proof.
  intros Hok Hlive. unfold dh_error.
  rewrite !burn_and_free_released. fields. intros [= _ <-]. fields.
  apply (cells_ok_released_opt _ _ _ e) in Hok.
  apply (cells_ok_released_opt _ _ _ f) in Hok.
  apply (cells_ok_released_opt _ _ _ pubkey) in Hok.
  apply (cells_ok_released_opt _ _ _ signature) in Hok.
  eapply cells_ok_weaken; [|exact Hok].
  intros p Hin.
  apply list_elem_of_filter in Hin as [H4 Hin].
  apply list_elem_of_filter in Hin as [H3 Hin].
  apply list_elem_of_filter in Hin as [H2 Hin].
  apply list_elem_of_filter in Hin as [H1 Hin].
  destruct (Hlive p Hin) as [?|[?|[?|?]]]; congruence.
Qed.

Lemma get_string_alloc f s :
  ∃ e,
    get_string f s = (None, set_ext e s)
    ∨ ∃ q d,
        get_string f s
        = (Some q,
           set_strings (<[q := String_live d]> (strings s)) (set_ext e s)).
Proof.
  unfold get_string, string_new. rewrite ext_rc_eq.
  destruct (f (ext s)) as [[d|] e]; cbn [fst snd]; exists e.
  - right. by eexists _, _.
  - by left.
Qed.

Ltac in_locals Hin :=
  repeat (apply elem_of_cons in Hin as [->|Hin]; [by auto|]);
  by (apply elem_of_nil in Hin || auto).

Ltac rel_exit Hok :=
  let Hrun := fresh "Hrun" in
  intros Hrun; right;
  eapply dh_error_releases; [| |exact Hrun]; [fields; exact Hok|];
  let p := fresh "p" in
  let Hin := fresh "Hin" in
  intros p Hin; in_locals Hin.

Ltac rel_alloc :=
  match goal with
  | |- context [get_string ?f ?s] =>
      let e := fresh "e" in
      let q := fresh "q" in
      let d := fresh "d" in
      destruct (get_string_alloc f s) as [e [->|(q & d & ->)]]
  end.

Lemma dh_case_NEWKEYS_SENT_releases m0 live e f pubkey signature rc s r s' :
  cells_ok m0 (strings s) live →
  (∀ p, p ∈ live →
        Some p = e ∨ Some p = f ∨ Some p = pubkey ∨ Some p = signature) →
  (∀ p, signature = Some p → dh_server_signature s = Some p) →
  dh_case_NEWKEYS_SENT X e f pubkey signature rc s = (r, s') →
  r = SSH_OK ∨ cells_ok m0 (strings s') [].
Proof.
  intros Hok Hlive Hlink. unfold dh_case_NEWKEYS_SENT.
  dh_call. dh_branch; [rel_exit Hok|].
  dh_call. dh_branch; [rel_exit Hok|].
  dh_call. dh_branch; [rel_exit Hok|].
  dh_call. dh_branch; [rel_exit Hok|].
  fields.
  assert (Hlive' : ∀ p, p ∈ live →
            Some p = e ∨ Some p = f ∨ Some p = pubkey
            ∨ Some p = dh_server_signature s).
  { intros p Hin. destruct (Hlive p Hin) as [?|[?|[?|Hs]]]; auto.
    right; right; right. symmetry. by apply Hlink. }
  dh_call. dh_branch.
  { intros Hrun; right.
    eapply dh_error_releases; [| |exact Hrun]; [fields; exact Hok|done]. }
  rewrite burn_and_free_released. fields.
  apply (cells_ok_released_opt _ _ _ (dh_server_signature s)) in Hok.
  unfold crypto_new, crypto_free.
  destruct (current_crypto s) as [c|]; fields;
    rewrite ext_rc_eq;
    (match goal with
     | |- context [set_ext (?call).2 _] => destruct call as [[] em]
     end);
    cbn [fst snd]; try (intros [= <- <-]; by left).
  all: intros Hrun; right;
    eapply dh_error_releases; [| |exact Hrun]; [fields; exact Hok|];
    intros p [Hne Hin]%list_elem_of_filter;
    destruct (Hlive' p Hin) as [?|[?|[?|?]]]; auto; congruence.
Qed.

Lemma dh_case_NEWKEYS_TO_SEND_releases m0 live e f pubkey signature rc s
    r s' :
  cells_ok m0 (strings s) live →
  (∀ p, p ∈ live →
        Some p = e ∨ Some p = f ∨ Some p = pubkey ∨ Some p = signature) →
  (∀ p, signature = Some p → dh_server_signature s = Some p) →
  dh_case_NEWKEYS_TO_SEND X e f pubkey signature rc s = (r, s') →
  r = SSH_OK ∨ cells_ok m0 (strings s') [].
Proof.
  intros Hok Hlive Hlink. unfold dh_case_NEWKEYS_TO_SEND.
  dh_call. dh_branch; [rel_exit Hok|].
  by apply (dh_case_NEWKEYS_SENT_releases m0 live).
Qed.

Lemma dh_case_INIT_SENT_releases m0 e f pubkey signature rc s r s' :
  cells_ok m0 (strings s) [] →
  dh_case_INIT_SENT X e f pubkey signature rc s = (r, s') →
  r = SSH_OK ∨ cells_ok m0 (strings s') [].
Proof.
  intros Hok. unfold dh_case_INIT_SENT.
  dh_call. dh_branch; [rel_exit Hok|].
  rel_alloc; [rel_exit Hok|].
  apply (cells_ok_alloc _ _ _ q d) in Hok. fields.
  rel_alloc; [rel_exit Hok|].
  apply (cells_ok_alloc _ _ _ q0 d0) in Hok. fields.
  dh_call. dh_branch; [rel_exit Hok|].
  rewrite burn_free_released. fields.
  apply (cells_ok_released _ _ _ q0) in Hok.
  apply (cells_ok_weaken _ _ _ [q]) in Hok.
  2: { intros p [Hne Hin]%list_elem_of_filter.
       apply elem_of_cons in Hin as [->|Hin]; [done|].
       apply elem_of_cons in Hin as [->|Hin]; [apply list_elem_of_here|].
       by apply elem_of_nil in Hin. }
  rel_alloc; [rel_exit Hok|].
  apply (cells_ok_alloc _ _ _ q1 d1) in Hok. fields.
  dh_call. dh_branch; [rel_exit Hok|].
  dh_call. dh_branch; [rel_exit Hok|].
  dh_call. dh_branch; [rel_exit Hok|].
  apply (dh_case_NEWKEYS_TO_SEND_releases m0 [q1; q]); fields;
    [exact Hok | intros p Hin; in_locals Hin | done].
Qed.

Lemma dh_case_INIT_TO_SEND_releases m0 e f pubkey signature rc s r s' :
  cells_ok m0 (strings s) [] →
  dh_case_INIT_TO_SEND X e f pubkey signature rc s = (r, s') →
  r = SSH_OK ∨ cells_ok m0 (strings s') [].
Proof.
  intros Hok. unfold dh_case_INIT_TO_SEND.
  dh_call. dh_branch; [rel_exit Hok|].
  by apply dh_case_INIT_SENT_releases.
Qed.

Lemma dh_case_INIT_releases m0 e f pubkey signature rc s r s' :
  cells_ok m0 (strings s) [] →
  dh_case_INIT X e f pubkey signature rc s = (r, s') →
  r = SSH_OK ∨ cells_ok m0 (strings s') [].
Proof.
  intros Hok. unfold dh_case_INIT.
  dh_call. dh_branch; [rel_exit Hok|].
  dh_call. dh_branch; [rel_exit Hok|].
  dh_call. dh_branch; [rel_exit Hok|].
  rel_alloc; [rel_exit Hok|].
  apply (cells_ok_alloc _ _ _ q d) in Hok. fields.
  dh_call. dh_branch; [rel_exit Hok|].
  rewrite burn_free_released. fields.
  apply (cells_ok_released _ _ _ q) in Hok.
  apply (cells_ok_weaken _ _ _ []) in Hok.
  2: { intros p [Hne Hin]%list_elem_of_filter.
       apply elem_of_cons in Hin as [->|Hin]; [done|].
       by apply elem_of_nil in Hin. }
  dh_call. dh_branch; [rel_exit Hok|].
  by apply dh_case_INIT_TO_SEND_releases.
Qed.

(** X7. On every error exit of [dh_handshake], each string that the call
    has obtained is released, and holds zeros. *)
Lemma dh_handshake_error_releases_strings s rc s' :
  dh_handshake X s = (rc, s') → rc ≠ SSH_OK →
  ∀ p, strings s !! p = None →
       strings s' !! p = None
       ∨ ∃ n, strings s' !! p = Some (String_freed (zeros n)).
Proof.
  intros Hrun Hrc.
  assert (Hok : rc = SSH_OK ∨ cells_ok (strings s) (strings s') []).
  { unfold dh_handshake in Hrun.
    destruct (dh_handshake_state s).
    - eapply dh_case_INIT_releases; [apply cells_ok_refl | exact Hrun].
    - eapply dh_case_INIT_TO_SEND_releases;
        [apply cells_ok_refl | exact Hrun].
    - eapply dh_case_INIT_SENT_releases; [apply cells_ok_refl | exact Hrun].
    - apply (dh_case_NEWKEYS_TO_SEND_releases (strings s) []
               None None None None SSH_ERROR s rc s');
        [apply cells_ok_refl | intros p Hin; in_locals Hin | done
        | exact Hrun].
    - apply (dh_case_NEWKEYS_SENT_releases (strings s) []
               None None None None SSH_ERROR s rc s');
        [apply cells_ok_refl | intros p Hin; in_locals Hin | done
        | exact Hrun].
    - injection Hrun as <- <-. right. apply cells_ok_refl. }
  destruct Hok as [?|Hok]; [done|].
  intros p Hp. specialize (Hok p Hp).
  destruct (strings s' !! p) as [[d|d]|]; [| |by left].
  - by apply elem_of_nil in Hok.
  - right. exists (length d). by rewrite <- Hok.
Qed.

Lemma get_string_some f s d e :
  f (ext s) = (Some d, e) →
  get_string f s
  = (Some (fresh (dom (strings s))),
     set_strings (<[fresh (dom (strings s)) := String_live d]> (strings s))
       (set_ext e s)).
Proof.
  intros Hf. unfold get_string, string_new. rewrite ext_rc_eq, Hf. by fields.
Qed.

Lemma fresh_not_in (m : gmap nat string_cell) : m !! fresh (dom m) = None.
Proof. apply not_elem_of_dom, is_fresh. Qed.

(** When [dh_build_k] fails, the signature that the call has read is
    released and the session still points to it. *)
Lemma dh_handshake_build_k_failure s e1 pk e2 fb e3 r3 e4 sg e5 rk e6 :
  dh_handshake_state s = DH_STATE_INIT_SENT →
  packet_wait X SSH2_MSG_KEXDH_REPLY 1 (ext s) = (SSH_OK, e1) →
  buffer_get_ssh_string X e1 = (Some pk, e2) →
  buffer_get_ssh_string X (dh_import_pubkey X (fresh (dom (strings s))) e2)
  = (Some fb, e3) →
  dh_import_f X fb e3 = (r3, e4) → 0 ≤ r3 →
  buffer_get_ssh_string X e4 = (Some sg, e5) →
  dh_build_k X e5 = (rk, e6) → rk < 0 →
  (dh_handshake X s).1 = SSH_ERROR
  ∧ ∃ q, strings s !! q = None
         ∧ dh_server_signature (dh_handshake X s).2 = Some q
         ∧ strings (dh_handshake X s).2 !! q
           = Some (String_freed (zeros (length sg))).
Proof.
  intros Hst H1 Hpk Hf Himp Hr3 Hsg Hk Hrk.
  unfold dh_handshake. rewrite Hst. unfold dh_case_INIT_SENT.
  rewrite ext_rc_eq, H1. fields. cbn [negb Z.eqb SSH_OK].
  rewrite (get_string_some _ _ pk e2) by done. fields.
  set (p1 := fresh (dom (strings s))).
  set (m1 := <[p1 := String_live pk]> (strings s)).
  rewrite (get_string_some _ _ fb e3) by done. fields.
  set (p2 := fresh (dom m1)).
  set (m2 := <[p2 := String_live fb]> m1).
  rewrite ext_rc_eq. fields.
  assert (Hread : ∀ s0, strings s0 = m2 → string_read s0 p2 = fb).
  { intros s0 Hs0. unfold string_read. rewrite Hs0. subst m2.
    by rewrite lookup_insert_eq. }
  rewrite Hread by done. rewrite Himp. fields.
  replace (r3 <? 0) with false by (symmetry; apply Z.ltb_ge; lia).
  rewrite burn_free_released. fields.
  assert (Hm3 : released p2 m2 = <[p2 := String_freed (zeros (length fb))]> m2).
  { unfold released. subst m2. by rewrite lookup_insert_eq. }
  rewrite Hm3. set (m3 := <[p2 := String_freed (zeros (length fb))]> m2).
  rewrite (get_string_some _ _ sg e5) by done. fields.
  set (p3 := fresh (dom m3)).
  set (m4 := <[p3 := String_live sg]> m3).
  rewrite ext_rc_eq. fields. rewrite Hk. fields.
  replace (rk <? 0) with true by (symmetry; apply Z.ltb_lt; lia).
  unfold dh_error. rewrite !burn_and_free_released. fields.
  split; [done|]. exists p3.
  assert (Hp3 : m3 !! p3 = None) by apply fresh_not_in.
  assert (Hp31 : p3 ≠ p1).
  { intros Heq. subst m3 m2 m1. rewrite Heq in Hp3.
    destruct (decide (p2 = p1)) as [H21|H21].
    - rewrite H21 in Hp3. by rewrite lookup_insert_eq in Hp3.
    - rewrite lookup_insert_ne in Hp3 by done.
      rewrite lookup_insert_ne in Hp3 by done.
      by rewrite lookup_insert_eq in Hp3. }
  split; [|split; [done|]].
  - subst m3 m2 m1.
    destruct (decide (p2 = p3)) as [H23|H23].
    { rewrite H23 in Hp3. by rewrite lookup_insert_eq in Hp3. }
    rewrite lookup_insert_ne in Hp3 by done.
    rewrite lookup_insert_ne in Hp3 by done.
    by rewrite lookup_insert_ne in Hp3 by done.
  - assert (H4 : released p1 m4 !! p3 = Some (String_live sg)).
    { unfold released. destruct (m4 !! p1) as [[?|?]|];
        [rewrite lookup_insert_ne by done| |];
        subst m4; by rewrite lookup_insert_eq. }
    cbn [released_opt]. unfold released at 1. rewrite H4.
    by rewrite lookup_insert_eq.
Qed.

(** ** [ssh_connect] and [ssh_disconnect] *)

Lemma ssh_connect_loop_ends fuel :
  ∀ s s',
    ssh_connect_loop X fuel s = Some s' →
    session_state s' = SSH_SESSION_STATE_ERROR
    ∨ session_state s' = SSH_SESSION_STATE_AUTHENTICATING.
Proof.
  induction fuel as [|fuel IH]; intros s s'; cbn;
    destruct (connect_loop_done s) eqn:Hdone; try done.
  - intros [= <-]. unfold connect_loop_done in Hdone.
    apply orb_prop in Hdone as [H|H]; apply bool_decide_eq_true in H; auto.
  - intros [= <-]. unfold connect_loop_done in Hdone.
    apply orb_prop in Hdone as [H|H]; apply bool_decide_eq_true in H; auto.
  - apply IH.
Qed.

(** Once the drive loop has been entered, [ssh_connect] returns 0 in
    whichever of the two states the loop ends. *)
Lemma ssh_connect_on_descriptor fuel s r0 e r s' :
  ssh_init X (ext s) = (r0, e) → 0 ≤ r0 → fd s ≠ -1 →
  ssh_connect X fuel (Some s) = Some (r, Some s') →
  r = 0
  ∧ (session_state s' = SSH_SESSION_STATE_ERROR
     ∨ session_state s' = SSH_SESSION_STATE_AUTHENTICATING).
Proof.
  intros Hinit Hr0 Hfd. unfold ssh_connect.
  rewrite ext_rc_eq. fields. rewrite Hinit. fields.
  replace (r0 <? 0) with false by (symmetry; apply Z.ltb_ge; lia).
  replace (fd s =? -1) with false by (symmetry; by apply Z.eqb_neq).
  cbn [andb negb Z.eqb SSH_OK].
  match goal with |- context [ssh_connect_loop X fuel ?s0] =>
    destruct (ssh_connect_loop X fuel s0) as [s1|] eqn:Hloop end; [|done].
  intros [= <- <-]. split; [done|]. by eapply ssh_connect_loop_ends.
Qed.

(** [ssh_disconnect] resets [alive] when the socket is closed, and leaves
    the session as it is when the first append to the buffer fails. *)
Lemma ssh_disconnect_closed_socket s :
  ssh_socket_is_open X (ext s) = false →
  ssh_disconnect X (Some s) = Some (set_alive 0 s).
Proof. intros Hopen. unfold ssh_disconnect. by rewrite Hopen. Qed.

Lemma ssh_disconnect_append_fails s r e :
  ssh_socket_is_open X (ext s) = true →
  buffer_add_u8 X SSH2_MSG_DISCONNECT (ext s) = (r, e) → r < 0 →
  ssh_disconnect X (Some s) = Some (set_ext e s).
Proof.
  intros Hopen Hadd Hr. unfold ssh_disconnect. rewrite Hopen.
  rewrite ext_rc_eq, Hadd. fields.
  by replace (r <? 0) with true by (symmetry; apply Z.ltb_lt; lia).
Qed.

(** * Further properties *)

(** ** The handshake as a whole *)

Ltac dh_touched Htouch :=
  unfold dh_touch, kept in *; fields; exact Htouch.

Ltac dh_branch_eq :=
  match goal with
  | |- context [if ?c then _ else _] =>
      let Hc := fresh "Hc" in destruct c eqn:Hc
  end.

Lemma rc_not_ok rc : negb (rc =? SSH_OK) = true → rc ≠ SSH_OK.
Proof. intros H%negb_true_iff. by apply Z.eqb_neq. Qed.

Lemma rc_is_error rc : (rc =? SSH_ERROR) = true → rc ≠ SSH_OK.
Proof. intros H%Z.eqb_eq. by subst. Qed.

(** An error exit: the state of the handshake stays, the result is [rc]. *)
Lemma dh_error_result s0 e f pubkey signature rc s r s' :
  dh_error e f pubkey signature rc s = (r, s') →
  dh_touch s0 s →
  (dh_rank (dh_handshake_state s0) ≤ dh_rank (dh_handshake_state s))%nat →
  (dh_rank (dh_handshake_state s) ≤ 4)%nat →
  rc ≠ SSH_OK →
  dh_result s0 r s'.
Proof.
  destruct (dh_error_frame e f pubkey signature rc s) as [st ->].
  intros [= <- <-] Htouch Hrank Hle Hrc.
  split; [dh_touched Htouch|]. fields. split; [done|].
  split; [|done]. split; [done|]. intros Hfin. rewrite Hfin in Hle.
  cbn in Hle. lia.
Qed.

Ltac dh_stop Htouch :=
  let Hrun := fresh "Hrun" in
  intros Hrun; eapply dh_error_result;
    [exact Hrun | dh_touched Htouch | by fields | by (fields; cbn; lia)
    | first [ done | by apply rc_not_ok | by apply rc_is_error ] ].

Lemma dh_case_NEWKEYS_SENT_result s0 e f pubkey signature rc s r s' :
  dh_touch s0 s →
  (dh_rank (dh_handshake_state s0) ≤ dh_rank (dh_handshake_state s))%nat →
  (dh_rank (dh_handshake_state s) ≤ 4)%nat →
  dh_case_NEWKEYS_SENT X e f pubkey signature rc s = (r, s') →
  dh_result s0 r s'.
Proof.
  intros Htouch Hrank Hle. unfold dh_case_NEWKEYS_SENT.
  dh_call. dh_branch_eq; [dh_stop Htouch|].
  dh_call. dh_branch_eq; [dh_stop Htouch|].
  dh_call. dh_branch_eq; [dh_stop Htouch|].
  dh_call. dh_branch_eq; [dh_stop Htouch|].
  dh_call. dh_branch_eq; [dh_stop Htouch|].
  dh_frame. unfold crypto_new, crypto_free. fields.
  destruct (current_crypto s) as [c|]; fields;
    rewrite ext_rc_eq;
    (match goal with
     | |- context [set_ext (?call).2 _] => destruct call as [[] em]
     end);
    cbn [fst snd]; try dh_stop Htouch.
  all: intros [= <- <-]; split; [dh_touched Htouch|]; fields;
    (split; [cbn; lia|]); done.
Qed.

Lemma dh_case_NEWKEYS_TO_SEND_result s0 e f pubkey signature rc s r s' :
  dh_touch s0 s →
  (dh_rank (dh_handshake_state s0) ≤ dh_rank (dh_handshake_state s))%nat →
  (dh_rank (dh_handshake_state s) ≤ 3)%nat →
  dh_case_NEWKEYS_TO_SEND X e f pubkey signature rc s = (r, s') →
  dh_result s0 r s'.
Proof.
  intros Htouch Hrank Hle. unfold dh_case_NEWKEYS_TO_SEND.
  dh_call. dh_branch_eq; [dh_stop Htouch|].
  apply dh_case_NEWKEYS_SENT_result;
    [dh_touched Htouch | fields; cbn; lia | fields; cbn; lia].
Qed.

Lemma dh_case_INIT_SENT_result s0 e f pubkey signature rc s r s' :
  dh_touch s0 s →
  (dh_rank (dh_handshake_state s0) ≤ dh_rank (dh_handshake_state s))%nat →
  (dh_rank (dh_handshake_state s) ≤ 2)%nat →
  dh_case_INIT_SENT X e f pubkey signature rc s = (r, s') →
  dh_result s0 r s'.
Proof.
  intros Htouch Hrank Hle. unfold dh_case_INIT_SENT.
  dh_call. dh_branch_eq; [dh_stop Htouch|].
  dh_frame. destruct p as [pubkey_p|]; [|dh_stop Htouch].
  dh_frame. destruct p as [f_p|]; [|dh_stop Htouch].
  dh_call. dh_branch_eq; [dh_stop Htouch|].
  dh_frame.
  dh_frame. destruct p as [signature_p|]; [|dh_stop Htouch].
  dh_call. dh_branch_eq; [dh_stop Htouch|].
  dh_call. dh_branch_eq; [dh_stop Htouch|].
  dh_call. dh_branch_eq; [dh_stop Htouch|].
  apply dh_case_NEWKEYS_TO_SEND_result;
    [dh_touched Htouch | fields; cbn; lia | fields; cbn; lia].
Qed.

Lemma dh_case_INIT_TO_SEND_result s0 e f pubkey signature rc s r s' :
  dh_touch s0 s →
  (dh_rank (dh_handshake_state s0) ≤ dh_rank (dh_handshake_state s))%nat →
  (dh_rank (dh_handshake_state s) ≤ 1)%nat →
  dh_case_INIT_TO_SEND X e f pubkey signature rc s = (r, s') →
  dh_result s0 r s'.
Proof.
  intros Htouch Hrank Hle. unfold dh_case_INIT_TO_SEND.
  dh_call. dh_branch_eq; [dh_stop Htouch|].
  apply dh_case_INIT_SENT_result;
    [dh_touched Htouch | fields; cbn; lia | fields; cbn; lia].
Qed.

Lemma dh_case_INIT_result s0 e f pubkey signature rc s r s' :
  dh_touch s0 s →
  (dh_rank (dh_handshake_state s0) ≤ dh_rank (dh_handshake_state s))%nat →
  (dh_rank (dh_handshake_state s) ≤ 0)%nat →
  rc ≠ SSH_OK →
  dh_case_INIT X e f pubkey signature rc s = (r, s') →
  dh_result s0 r s'.
Proof.
  intros Htouch Hrank Hle Hrc. unfold dh_case_INIT.
  dh_call. dh_branch_eq; [dh_stop Htouch|].
  dh_call. dh_branch_eq; [dh_stop Htouch|].
  dh_call. dh_branch_eq; [dh_stop Htouch|].
  dh_frame. destruct p as [e_p|]; [|dh_stop Htouch].
  dh_call. dh_branch_eq; [dh_stop Htouch|].
  dh_frame.
  dh_call. dh_branch_eq; [dh_stop Htouch|].
  apply dh_case_INIT_TO_SEND_result;
    [dh_touched Htouch | fields; cbn; lia | fields; cbn; lia].
Qed.

(** Every call of the handshake. *)
Lemma dh_handshake_result s rc s' :
  dh_handshake X s = (rc, s') →
  dh_touch s s'
  ∧ (dh_rank (dh_handshake_state s) ≤ dh_rank (dh_handshake_state s'))%nat
  ∧ (rc = SSH_OK
     ↔ dh_handshake_state s ≠ DH_STATE_FINISHED
       ∧ dh_handshake_state s' = DH_STATE_FINISHED)
  ∧ (rc = SSH_OK → dh_server_signature s' = None).
Proof.
  intros Hrun. unfold dh_handshake in Hrun.
  destruct (dh_handshake_state s) eqn:Hs.
  1-5: assert (Hres : dh_result s rc s');
    [ first
        [ eapply dh_case_INIT_result; [| | | |exact Hrun];
            [done | done | rewrite Hs; cbn; lia | done]
        | eapply dh_case_INIT_TO_SEND_result; [| | |exact Hrun];
            [done | done | rewrite Hs; cbn; lia]
        | eapply dh_case_INIT_SENT_result; [| | |exact Hrun];
            [done | done | rewrite Hs; cbn; lia]
        | eapply dh_case_NEWKEYS_TO_SEND_result; [| | |exact Hrun];
            [done | done | rewrite Hs; cbn; lia]
        | eapply dh_case_NEWKEYS_SENT_result; [| | |exact Hrun];
            [done | done | rewrite Hs; cbn; lia] ]
    | destruct Hres as (Ht & Hr & Hiff & Hsig); rewrite Hs in Hr;
      repeat split; try done; try (by apply Hiff); by intros [_ ?]; apply Hiff ].
  injection Hrun as <- <-. fields. rewrite Hs.
  repeat split; try done. by intros [? _].
Qed.

(** What the macro [set_status] adds to the log. *)
Lemma set_status_log_eq tenths s :
  set_status tenths s
  = set_status_log
      (status_log s ++ if connect_status_function s then [tenths] else []) s.
Proof.
  unfold set_status. destruct (connect_status_function s); [done|].
  rewrite app_nil_r. by destruct s.
Qed.

(** ** The analysis of the banner inside [connection_callback] *)

Lemma ssh_analyze_banner_status l s ssh1 ssh2 :
  ssh_analyze_banner X (set_status_log l s) ssh1 ssh2
  = let '(rc, f1, f2, s1) := ssh_analyze_banner X s ssh1 ssh2 in
    (rc, f1, f2, set_status_log l s1).
Proof.
  unfold ssh_analyze_banner. fields.
  repeat case_match; simplify_eq; reflexivity.
Qed.

(** The analysis either rejects the banner, and records the mismatch, or
    accepts it with at least one flag set, and writes at most [openssh]. *)
Lemma ssh_analyze_banner_cases s banner ssh1 ssh2 :
  serverbanner s = Some banner →
  ssh_analyze_banner X s ssh1 ssh2
  = (-1, ssh1, ssh2, ssh_set_error (Protocol_mismatch banner) s)
  ∨ ∃ f1 f2 v,
      ssh_analyze_banner X s ssh1 ssh2 = (0, f1, f2, set_openssh v s)
      ∧ (f1 = 0 ∨ f1 = 1) ∧ (f2 = 0 ∨ f2 = 1) ∧ (f1 = 1 ∨ f2 = 1).
Proof.
  intros Hb. unfold ssh_analyze_banner. rewrite Hb.
  destruct (negb _); [by left|].
  match goal with
  | |- context [match ?flags with Some _ => _ | None => _ end] =>
      destruct flags as [[f1 f2]|] eqn:Hflags
  end; [|by left].
  right. exists f1, f2.
  assert (Hf : (f1 = 0 ∨ f1 = 1) ∧ (f2 = 0 ∨ f2 = 1) ∧ (f1 = 1 ∨ f2 = 1)).
  { repeat case_match; simplify_eq; auto. }
  destruct (strstr _ _); [by eexists|].
  exists (openssh s). split; [|done]. f_equal. by destruct s.
Qed.

(** ** [connection_callback], state by state *)

Lemma ssh_send_banner_client_copy s :
  ∃ e,
    (ssh_send_banner X s 0).2
    = set_ext e
        (set_clientbanner
           (if (malloc_ok X (ext s)).1
            then Some (c_str (match xbanner s with
                              | Some b => b
                              | None => if version s =? 1
                                        then CLIENTBANNER1 X
                                        else CLIENTBANNER2 X
                              end))
            else None) s).
Proof.
  unfold ssh_send_banner, strdup. rewrite ext_rc_eq.
  destruct (malloc_ok X (ext s)) as [[] e1]; cbn [fst snd].
  - fields. dh_call. dh_branch; [by eexists|].
    dh_call. dh_branch; by eexists.
  - by eexists.
Qed.

(** The state [BANNER_RECEIVED]: what the analysis of the banner and the
    versions allowed locally lead to. *)
Lemma connection_callback_banner_received s banner :
  session_state s = SSH_SESSION_STATE_BANNER_RECEIVED →
  serverbanner s = Some banner →
  let '(rc, f1, f2, _) := ssh_analyze_banner X s 0 0 in
  let chosen :=
    if rc <? 0 then None
    else if negb (f2 =? 0) && negb (ssh2 s =? 0) then Some 2
    else if negb (f1 =? 0) && negb (ssh1 s =? 0) then Some 1
    else None in
  let s' := connection_callback X s in
  let called := connect_status_function s in
  match chosen with
  | Some v =>
      session_state s' = SSH_SESSION_STATE_INITIAL_KEX
      ∧ version s' = v
      ∧ cb_data (socket_callbacks s')
        = Some Data_ssh_packet_socket_callback
      ∧ status_log s' = status_log s ++ (if called then [4; 5] else [])
      ∧ alive s' = alive s
      ∧ error s' = error s
  | None =>
      session_state s' = SSH_SESSION_STATE_ERROR
      ∧ version s' = version s
      ∧ socket_callbacks s' = socket_callbacks s
      ∧ status_log s' = status_log s ++ (if called then [4] else [])
      ∧ alive s' = 0
      ∧ error s'
        = Some (if rc <? 0 then Protocol_mismatch banner
                else No_version_usable banner)
      ∧ clientbanner s' = clientbanner s
      ∧ ext s' = ssh_socket_close X (ext s)
  end
  ∧ serverbanner s' = Some banner
  ∧ client s' = client s ∧ connected s' = connected s
  ∧ dh_handshake_state s' = dh_handshake_state s
  ∧ current_crypto s' = current_crypto s
  ∧ next_crypto s' = next_crypto s
  ∧ cryptos s' = cryptos s ∧ strings s' = strings s.
Proof.
  intros Hst Hb. unfold connection_callback. rewrite Hst, Hb.
  rewrite set_status_log_eq, ssh_analyze_banner_status.
  destruct (ssh_analyze_banner_cases s banner 0 0 Hb)
    as [->|(f1 & f2 & v & -> & Hf1 & Hf2 & _)].
  { cbn [Z.ltb Z.compare]. unfold connection_callback_error. by fields. }
  cbn [Z.ltb Z.compare]. fields.
  destruct (negb (f2 =? 0) && negb (ssh2 s =? 0)) eqn:H2.
  - match goal with |- context [ssh_send_banner X ?s0 0] =>
      destruct (ssh_send_banner_client_copy s0) as (e & Hsend);
      destruct (ssh_send_banner X s0 0) as [r s2] end.
    cbn [snd] in Hsend. subst s2. rewrite set_status_log_eq. fields.
    rewrite <- app_assoc.
    by destruct (connect_status_function s).
  - destruct (negb (f1 =? 0) && negb (ssh1 s =? 0)) eqn:H1.
    + match goal with |- context [ssh_send_banner X ?s0 0] =>
        destruct (ssh_send_banner_client_copy s0) as (e & Hsend);
        destruct (ssh_send_banner X s0 0) as [r s2] end.
      cbn [snd] in Hsend. subst s2. rewrite set_status_log_eq. fields.
      rewrite <- app_assoc.
      by destruct (connect_status_function s).
    + unfold connection_callback_error. by fields.
Qed.

Ltac use_touch Ht :=
  unfold dh_touch, kept in Ht; fields; injection Ht as
    ?Halive ?Hclient ?Hconnected ?Hfd ?Hhost ?Hport ?Hbind ?Hstate ?Hversion
    ?Hssh1 ?Hssh2 ?Hopenssh ?Hsbanner ?Hcbanner ?Hxbanner ?Hbanner ?Hcbs
    ?Hfun ?Hlog.

(** The state [INITIAL_KEX]. *)
Lemma connection_callback_initial_kex s :
  session_state s = SSH_SESSION_STATE_INITIAL_KEX →
  let s' := connection_callback X s in
  let called := connect_status_function s in
  ((session_state s' = SSH_SESSION_STATE_AUTHENTICATING
    ∧ alive s' = alive s
    ∧ (version s = 1 ∨ version s = 2 → connected s' = 1))
   ∨ (session_state s' = SSH_SESSION_STATE_ERROR ∧ alive s' = 0))
  ∧ (∃ l, status_log s' = status_log s ++ (if called then l else [])
          ∧ (l = [] ∨ l = [6] ∨ l = [6; 8] ∨ l = [6; 8; 10]))
  ∧ version s' = version s
  ∧ serverbanner s' = serverbanner s
  ∧ clientbanner s' = clientbanner s
  ∧ client s' = client s
  ∧ openssh s' = openssh s
  ∧ socket_callbacks s' = socket_callbacks s
  ∧ (version s ≠ 2 →
     dh_handshake_state s' = dh_handshake_state s
     ∧ dh_server_signature s' = dh_server_signature s
     ∧ current_crypto s' = current_crypto s
     ∧ next_crypto s' = next_crypto s
     ∧ cryptos s' = cryptos s ∧ strings s' = strings s).
Proof.
  intros Hst. unfold connection_callback. rewrite Hst.
  destruct (version s =? 2) eqn:Hv2.
  - apply Z.eqb_eq in Hv2.
    dh_call. rewrite set_status_log_eq. fields.
    dh_call. dh_branch_eq.
    { unfold connection_callback_error. fields.
      split; [by right|]. split; [exists [6]; by auto|]. by repeat split. }
    dh_call. dh_branch_eq.
    { unfold connection_callback_error. fields.
      split; [by right|]. split; [exists [6]; by auto|]. by repeat split. }
    rewrite set_status_log_eq. fields.
    match goal with |- context [dh_handshake X ?s0] =>
      destruct (dh_handshake X s0) as [rd sd] eqn:Hdh end.
    apply dh_handshake_result in Hdh as (Ht & _). use_touch Ht.
    dh_branch_eq.
    { unfold connection_callback_error. fields.
      split; [by right|].
      split; [exists [6; 8]; split; [|by auto]|by repeat split].
      rewrite Hlog, <- app_assoc. by destruct (connect_status_function s). }
    rewrite set_status_log_eq. fields.
    split; [left; by repeat split|].
    split; [exists [6; 8; 10]; split; [|by auto]|by repeat split].
    rewrite Hlog, Hfun, <- !app_assoc.
    by destruct (connect_status_function s).
  - apply Z.eqb_neq in Hv2.
    destruct (version s =? 1) eqn:Hv1.
    + dh_call. dh_branch_eq.
      { unfold connection_callback_error. fields.
        split; [by right|].
        split; [exists []; split; [|by auto]|by repeat split].
        by destruct (connect_status_function s); rewrite app_nil_r. }
      rewrite set_status_log_eq. fields.
      split; [left; by repeat split|].
      split; [exists [6]; by auto|]. by repeat split.
    + apply Z.eqb_neq in Hv1. fields.
      split; [left; repeat split; try done; by intros [?|?]|].
      split; [exists []; split; [|by auto]|by repeat split].
      by destruct (connect_status_function s); rewrite app_nil_r.
Qed.

(** ** C strings *)

Lemma c_str_no_NUL (l : list ascii) : NUL ∉ c_str l.
Proof.
  induction l as [|c l IH]; cbn; [apply not_elem_of_nil|].
  destruct (Ascii.eqb c NUL) eqn:Hc; [apply not_elem_of_nil|].
  apply not_elem_of_cons. split; [|done].
  intros <-. by rewrite Ascii.eqb_refl in Hc.
Qed.

Lemma c_str_elem (l : list ascii) x : x ∈ c_str l → x ∈ l.
Proof.
  induction l as [|c l IH]; cbn; [done|].
  destruct (Ascii.eqb c NUL); [by intros ?%elem_of_nil|].
  intros [->|Hin]%elem_of_cons; [apply list_elem_of_here|].
  by apply list_elem_of_further, IH.
Qed.

Lemma c_str_length (l : list ascii) : (length (c_str l) ≤ length l)%nat.
Proof.
  induction l as [|c l IH]; cbn; [lia|].
  destruct (Ascii.eqb c NUL); cbn; lia.
Qed.

Lemma c_str_id (l : list ascii) : NUL ∉ l → c_str l = l.
Proof.
  induction l as [|c l IH]; cbn; [done|].
  intros [Hc Hl]%not_elem_of_cons.
  replace (Ascii.eqb c NUL) with false
    by (symmetry; apply Ascii.eqb_neq; congruence).
  by rewrite IH.
Qed.

Lemma cr_to_nul_no_CR (l : list ascii) : CR ∉ map cr_to_nul l.
Proof.
  induction l as [|c l IH]; cbn; [apply not_elem_of_nil|].
  apply not_elem_of_cons. split; [|done].
  unfold cr_to_nul. destruct (Ascii.eqb c CR) eqn:Hc; [done|].
  apply Ascii.eqb_neq in Hc. congruence.
Qed.

Lemma cr_to_nul_no_LF (l : list ascii) : LF ∉ l → LF ∉ map cr_to_nul l.
Proof.
  induction l as [|c l IH]; cbn; [done|].
  intros [Hc Hl]%not_elem_of_cons.
  apply not_elem_of_cons. split; [|by apply IH].
  unfold cr_to_nul. destruct (Ascii.eqb c CR); [done | congruence].
Qed.

Lemma cr_to_nul_id (l : list ascii) : CR ∉ l → map cr_to_nul l = l.
Proof.
  induction l as [|c l IH]; cbn; [done|].
  intros [Hc Hl]%not_elem_of_cons. rewrite IH by done.
  unfold cr_to_nul.
  by replace (Ascii.eqb c CR) with false
    by (symmetry; apply Ascii.eqb_neq; congruence).
Qed.

(** ** The banner reader on a whole line *)

(** The banner reader on a line that ends with a line feed. *)
Lemma callback_receive_banner_LF line rest s :
  (length line ≤ 128)%nat → LF ∉ line →
  ∃ s',
    callback_receive_banner X (line ++ LF :: rest) s
    = (Z.of_nat (length line) + 1, map cr_to_nul line ++ NUL :: rest, s')
    ∧ serverbanner s'
      = (if (malloc_ok X (ext s)).1
         then Some (c_str (map cr_to_nul line)) else None)
    ∧ ((malloc_ok X (ext s)).1 = false →
       session_state s' = SSH_SESSION_STATE_ERROR).
Proof.
  intros Hlen Hno. unfold callback_receive_banner.
  rewrite receive_banner_loop_LF by (done || lia).
  unfold strdup. rewrite ext_rc_eq. cbn [app fst snd].
  destruct (malloc_ok X (ext s)) as [ok e]. cbn [fst snd].
  eexists. split; [f_equal; f_equal; lia|].
  rewrite connection_callback_banner_received_serverbanner by done.
  fields. destruct ok.
  - by rewrite c_str_app_NUL.
  - split; [done|]. intros _. unfold connection_callback. by fields.
Qed.

(** X1. A line of at most 128 bytes that ends with a line feed is accepted,
    whatever follows it.  The callback consumes the line and its line feed
    and nothing more, and leaves the bytes behind the line feed as they
    are.  The banner it stores is the line up to its first CR or NUL: it
    holds no NUL, CR or LF and at most 128 characters.  If there is no
    memory for the copy, no banner is stored and the session ends in
    [ERROR]. *)
Theorem callback_receive_banner_line line rest s :
  (length line ≤ 128)%nat → LF ∉ line →
  let '(ret, buffer, s') :=
    callback_receive_banner X (line ++ LF :: rest) s in
  ret = Z.of_nat (length line) + 1
  ∧ buffer = map cr_to_nul line ++ NUL :: rest
  ∧ match serverbanner s' with
    | Some b =>
        b = c_str (map cr_to_nul line)
        ∧ (length b ≤ 128)%nat ∧ (NUL ∉ b) ∧ (CR ∉ b) ∧ (LF ∉ b)
    | None =>
        (malloc_ok X (ext s)).1 = false
        ∧ session_state s' = SSH_SESSION_STATE_ERROR
    end.
Proof.
  intros Hlen Hno.
  destruct (callback_receive_banner_LF line rest s Hlen Hno)
    as (s' & -> & -> & Herr).
  split; [done|]. split; [done|].
  destruct (malloc_ok X (ext s)).1; [|by split; [|apply Herr]].
  split; [done|].
  split; [etransitivity; [apply c_str_length|]; by rewrite length_map|].
  split; [apply c_str_no_NUL|].
  split; intros Hin%c_str_elem;
    [by apply cr_to_nul_no_CR in Hin | by apply cr_to_nul_no_LF in Hin].
Qed.

(** ** [ssh_send_banner] *)

(** What [ssh_send_banner] does once the copy of the banner is there: the
    line goes to the socket and the socket is flushed. *)
Lemma ssh_send_banner_writes s server e1 :
  malloc_ok X (ext s) = (true, e1) →
  let b := c_str (chosen_banner X s) in
  let s1 := if negb (server =? 0)
            then set_serverbanner (Some b) (set_ext e1 s)
            else set_clientbanner (Some b) (set_ext e1 s) in
  ssh_send_banner X s server
  = let '(r, s2) :=
      ext_rc (ssh_socket_write X (take 127 (b ++ [CR; LF]))) s1 in
    if r =? SSH_ERROR then (-1, s2) else
    let '(r, s3) := ext_rc (ssh_socket_blocking_flush X) s2 in
    if negb (r =? SSH_OK) then (-1, s3) else (0, s3).
Proof.
  intros Hm. unfold ssh_send_banner, strdup, chosen_banner.
  rewrite ext_rc_eq, Hm. cbn [fst snd].
  destruct (xbanner s); by destruct (negb (server =? 0)).
Qed.

(** X2. Round trip of the banner.  A banner without NUL, CR and LF
    of at most 125 characters is written by [ssh_send_banner] as the
    banner followed by CR LF, and stored as [clientbanner]; the banner
    reader of a peer that receives this line consumes all of it and stores
    the same banner as [serverbanner]. *)
Theorem banner_round_trip s e1 peer :
  let b := chosen_banner X s in
  NUL ∉ b → CR ∉ b → LF ∉ b → (length b ≤ 125)%nat →
  malloc_ok X (ext s) = (true, e1) →
  (malloc_ok X (ext peer)).1 = true →
  ssh_send_banner X s 0
  = (let '(r, s2) :=
       ext_rc (ssh_socket_write X (b ++ [CR; LF]))
         (set_clientbanner (Some b) (set_ext e1 s)) in
     if r =? SSH_ERROR then (-1, s2) else
     let '(r, s3) := ext_rc (ssh_socket_blocking_flush X) s2 in
     if negb (r =? SSH_OK) then (-1, s3) else (0, s3))
  ∧ let '(ret, _, peer') :=
      callback_receive_banner X (b ++ [CR; LF]) peer in
    ret = Z.of_nat (length b) + 2 ∧ serverbanner peer' = Some b.
Proof.
  intros b Hnul Hcr Hlf Hlen Hm Hpeer. split.
  - rewrite (ssh_send_banner_writes s 0 e1 Hm). cbn [Z.eqb negb].
    fold b. rewrite (c_str_id b Hnul).
    by rewrite take_ge by (rewrite length_app; cbn; lia).
  - assert (Hline : LF ∉ b ++ [CR]).
    { intros [?|Hin]%elem_of_app; [done|].
      apply elem_of_cons in Hin as [?|Hin]; [done|].
      by apply elem_of_nil in Hin. }
    destruct (callback_receive_banner_LF (b ++ [CR]) [] peer)
      as (peer' & Hrun & Hbanner & _);
      [rewrite length_app; cbn; lia | done |].
    rewrite <- app_assoc in Hrun. cbn [app] in Hrun. rewrite Hrun.
    split; [rewrite length_app; cbn; lia|].
    rewrite Hbanner, Hpeer. f_equal.
    rewrite map_app, (cr_to_nul_id b Hcr). cbn [map].
    replace (cr_to_nul CR) with NUL by reflexivity.
    by rewrite c_str_app_NUL, c_str_id.
Qed.

(** X3. A banner of 126 characters or more does not fit the 128
    bytes of the buffer of [ssh_send_banner]: the line that goes to the
    socket has 127 bytes, the first 127 of the banner followed by CR, and
    for a banner without a line feed holds none, so the peer is left
    waiting for the end of the line.  The banner is stored whole. *)
Theorem ssh_send_banner_truncates s e1 :
  let b := chosen_banner X s in
  NUL ∉ b → LF ∉ b → (126 ≤ length b)%nat →
  malloc_ok X (ext s) = (true, e1) →
  let line := take 127 (b ++ [CR]) in
  ssh_send_banner X s 0
  = (let '(r, s2) :=
       ext_rc (ssh_socket_write X line)
         (set_clientbanner (Some b) (set_ext e1 s)) in
     if r =? SSH_ERROR then (-1, s2) else
     let '(r, s3) := ext_rc (ssh_socket_blocking_flush X) s2 in
     if negb (r =? SSH_OK) then (-1, s3) else (0, s3))
  ∧ length line = 127%nat ∧ LF ∉ line.
Proof.
  intros b Hnul Hlf Hlen Hm line. split; [|split].
  - rewrite (ssh_send_banner_writes s 0 e1 Hm). cbn [Z.eqb negb].
    fold b. rewrite (c_str_id b Hnul).
    replace (take 127 (b ++ [CR; LF])) with line; [done|].
    subst line. change [CR; LF] with ([CR] ++ [LF]).
    rewrite app_assoc.
    by rewrite (take_app_le _ [LF]) by (rewrite length_app; cbn; lia).
  - subst line. rewrite length_take, length_app.
    change (length [CR]) with 1%nat. lia.
  - subst line. intros (i & Hin%list_elem_of_lookup_2 & _)%elem_of_take.
    apply elem_of_app in Hin as [?|Hin]; [done|].
    apply elem_of_cons in Hin as [?|Hin]; [done|].
    by apply elem_of_nil in Hin.
Qed.

(** ** The handshake: result and progress *)

(** X4. [dh_handshake] returns [SSH_OK] exactly when the call has
    brought the handshake to [DH_STATE_FINISHED] from another state; every
    other exit, the call in [DH_STATE_FINISHED] included, returns a value
    that is not [SSH_OK].  After [SSH_OK] the session holds no signature
    of the server any more. *)
Theorem dh_handshake_ok_iff_finished s :
  let '(rc, s') := dh_handshake X s in
  (rc = SSH_OK
   ↔ dh_handshake_state s ≠ DH_STATE_FINISHED
     ∧ dh_handshake_state s' = DH_STATE_FINISHED)
  ∧ (rc = SSH_OK → dh_server_signature s' = None).
Proof.
  destruct (dh_handshake X s) as [rc s'] eqn:Hrun.
  by apply dh_handshake_result in Hrun as (_ & _ & Hiff & Hsig).
Qed.

(** X5. [dh_handshake] never moves the state of the handshake
    backwards: the state after a call, successful or not, is the state
    before it or a later one. *)
Theorem dh_handshake_state_advances s :
  (dh_rank (dh_handshake_state s)
   ≤ dh_rank (dh_handshake_state (dh_handshake X s).2))%nat.
Proof.
  destruct (dh_handshake X s) as [rc s'] eqn:Hrun.
  by apply dh_handshake_result in Hrun as (_ & Hrank & _).
Qed.

(** ** [connection_callback]: transitions, progress, versions *)

(** X8. The transitions of [connection_callback].  In [NONE],
    [CONNECTING], [SOCKET_CONNECTED] and [AUTHENTICATING] it does nothing.
    From [BANNER_RECEIVED] it goes to [INITIAL_KEX], with version 1 or 2
    chosen, or to [ERROR]; from [INITIAL_KEX] to [AUTHENTICATING], with
    the version unchanged, or to [ERROR].  Each of these moves to [ERROR]
    clears [alive]; a move forward leaves [alive] as it is.  In [ERROR]
    the session stays in [ERROR] and only the last error is rewritten. *)
Theorem connection_callback_transitions s :
  let s' := connection_callback X s in
  match session_state s with
  | SSH_SESSION_STATE_NONE
  | SSH_SESSION_STATE_CONNECTING
  | SSH_SESSION_STATE_SOCKET_CONNECTED
  | SSH_SESSION_STATE_AUTHENTICATING => s' = s
  | SSH_SESSION_STATE_BANNER_RECEIVED =>
      (session_state s' = SSH_SESSION_STATE_INITIAL_KEX
       ∧ alive s' = alive s ∧ (version s' = 1 ∨ version s' = 2))
      ∨ (session_state s' = SSH_SESSION_STATE_ERROR ∧ alive s' = 0)
  | SSH_SESSION_STATE_INITIAL_KEX =>
      (session_state s' = SSH_SESSION_STATE_AUTHENTICATING
       ∧ alive s' = alive s ∧ version s' = version s)
      ∨ (session_state s' = SSH_SESSION_STATE_ERROR ∧ alive s' = 0)
  | SSH_SESSION_STATE_ERROR =>
      s' = ssh_set_error (Invalid_state SSH_SESSION_STATE_ERROR) s
  end.
Proof.
  destruct (session_state s) eqn:Hst; cbn zeta.
  1-3, 6: unfold connection_callback; by rewrite Hst.
  - destruct (serverbanner s) as [banner|] eqn:Hb.
    + pose proof (connection_callback_banner_received s banner Hst Hb) as H.
      destruct (ssh_analyze_banner X s 0 0) as [[[rc f1] f2] sa].
      cbn zeta in H. destruct H as [H _].
      destruct (rc <? 0); [right; by destruct H as (? & _ & _ & _ & ? & _)|].
      destruct (negb (f2 =? 0) && negb (ssh2 s =? 0)).
      { left. destruct H as (? & ? & _ & _ & ? & _). auto. }
      destruct (negb (f1 =? 0) && negb (ssh1 s =? 0)).
      { left. destruct H as (? & ? & _ & _ & ? & _). auto. }
      right. by destruct H as (? & _ & _ & _ & ? & _).
    + right. unfold connection_callback. rewrite Hst, Hb. by fields.
  - destruct (connection_callback_initial_kex s Hst)
      as ([(? & ? & _)|[? ?]] & _ & ? & _); auto.
  - unfold connection_callback. by rewrite Hst.
Qed.

(** X9. One call of [connection_callback] reports to the progress
    callback one of the sequences (in tenths) none, 4, 4 5, 6, 6 8 or
    6 8 10, in this order, and nothing when no callback is set. *)
Theorem connection_callback_progress s :
  ∃ l,
    status_log (connection_callback X s)
    = status_log s ++ (if connect_status_function s then l else [])
    ∧ (l = [] ∨ l = [4] ∨ l = [4; 5] ∨ l = [6] ∨ l = [6; 8]
       ∨ l = [6; 8; 10]).
Proof.
  assert (Hnone : ∀ s0 : session W C,
            status_log s0
            = status_log s0 ++ (if connect_status_function s0 then [] else [])).
  { intros s0. by destruct (connect_status_function s0); rewrite app_nil_r. }
  destruct (session_state s) eqn:Hst.
  1-3, 6-7: exists []; unfold connection_callback; rewrite Hst; fields;
    split; [apply Hnone | by auto].
  - destruct (serverbanner s) as [banner|] eqn:Hb.
    + pose proof (connection_callback_banner_received s banner Hst Hb) as H.
      destruct (ssh_analyze_banner X s 0 0) as [[[rc f1] f2] sa].
      cbn zeta in H. destruct H as [H _].
      destruct (rc <? 0).
      { exists [4]. destruct H as (_ & _ & _ & -> & _). auto 10. }
      destruct (negb (f2 =? 0) && negb (ssh2 s =? 0)).
      { exists [4; 5]. destruct H as (_ & _ & _ & -> & _). auto 10. }
      destruct (negb (f1 =? 0) && negb (ssh1 s =? 0)).
      { exists [4; 5]. destruct H as (_ & _ & _ & -> & _). auto 10. }
      exists [4]. destruct H as (_ & _ & _ & -> & _). auto 10.
    + exists []. unfold connection_callback, connection_callback_error.
      rewrite Hst, Hb. fields. split; [apply Hnone | by auto].
  - destruct (connection_callback_initial_kex s Hst)
      as (_ & (l & -> & Hl) & _).
    exists l. split; [done|]. destruct Hl as [?|[?|[?|?]]]; auto 10.
Qed.

Lemma ssh_analyze_banner_rejects s banner ssh1 ssh2 :
  serverbanner s = Some banner →
  strncmp_eq banner (chars "SSH-") 4 = false
  ∨ (char_at (banner ++ NUL :: bytes_past_nul X (ext s)) 4 ≠ "1"%char
     ∧ char_at (banner ++ NUL :: bytes_past_nul X (ext s)) 4 ≠ "2"%char) →
  ssh_analyze_banner X s ssh1 ssh2
  = (-1, ssh1, ssh2, ssh_set_error (Protocol_mismatch banner) s).
Proof.
  intros Hb Hrej. unfold ssh_analyze_banner. rewrite Hb.
  destruct (strncmp_eq banner (chars "SSH-") 4); [|done].
  destruct Hrej as [?|[H1 H2]]; [done|]. cbn [negb].
  apply Ascii.eqb_neq in H1, H2. by rewrite H1, H2.
Qed.

(** X10. A banner that does not start with "SSH-", or whose fifth
    byte is neither '1' nor '2', ends the connection:
    [connection_callback] records "Protocol mismatch" with the banner,
    closes the socket, clears [alive] and goes to [ERROR].  It does this
    before anything is sent: no client banner is stored, the collaborators
    have seen the closing of the socket and nothing else, no version is
    chosen, the data callback is not re-bound and the progress callback
    has heard 0.4 only. *)
Theorem connection_callback_protocol_mismatch s banner :
  session_state s = SSH_SESSION_STATE_BANNER_RECEIVED →
  serverbanner s = Some banner →
  strncmp_eq banner (chars "SSH-") 4 = false
  ∨ (char_at (banner ++ NUL :: bytes_past_nul X (ext s)) 4 ≠ "1"%char
     ∧ char_at (banner ++ NUL :: bytes_past_nul X (ext s)) 4 ≠ "2"%char) →
  let s' := connection_callback X s in
  session_state s' = SSH_SESSION_STATE_ERROR
  ∧ error s' = Some (Protocol_mismatch banner)
  ∧ alive s' = 0
  ∧ ext s' = ssh_socket_close X (ext s)
  ∧ clientbanner s' = clientbanner s
  ∧ version s' = version s
  ∧ socket_callbacks s' = socket_callbacks s
  ∧ status_log s'
    = status_log s ++ (if connect_status_function s then [4] else []).
Proof.
  intros Hst Hb Hrej.
  pose proof (connection_callback_banner_received s banner Hst Hb) as H.
  rewrite (ssh_analyze_banner_rejects s banner 0 0 Hb Hrej) in H.
  cbn [Z.ltb Z.compare] in H. cbn zeta in H.
  destruct H as ((? & ? & ? & ? & ? & ? & ? & ?) & _). by repeat split.
Qed.

Lemma ssh_analyze_banner_2 s rest ssh1 ssh2 :
  serverbanner s = Some (chars "SSH-2" ++ rest) →
  ∃ v, ssh_analyze_banner X s ssh1 ssh2 = (0, 0, 1, set_openssh v s).
Proof.
  intros Hb. unfold ssh_analyze_banner. rewrite Hb. cbn.
  match goal with
  | |- context [match ?found with Some _ => _ | None => _ end] =>
      destruct found
  end; [by eexists|].
  exists (openssh s). by destruct s.
Qed.

Lemma ssh_analyze_banner_1 s rest ssh1 ssh2 :
  serverbanner s = Some (chars "SSH-1" ++ rest) →
  let byte6 :=
    char_at ((chars "SSH-1" ++ rest) ++ NUL :: bytes_past_nul X (ext s)) 6 in
  ∃ v,
    ssh_analyze_banner X s ssh1 ssh2
    = (0, 1, if Ascii.eqb byte6 "9" then 1 else 0, set_openssh v s).
Proof.
  intros Hb byte6. unfold ssh_analyze_banner. rewrite Hb.
  cbv beta iota zeta. fold byte6. clearbody byte6. cbn.
  match goal with
  | |- context [match ?found with Some _ => _ | None => _ end] =>
      destruct found
  end; [by eexists|].
  exists (openssh s). by destruct s.
Qed.

(** X11. The version that [connection_callback] chooses from the first
    bytes of the banner.  For a banner that starts with "SSH-2" the
    version is 2 when SSHv2 is allowed locally; otherwise the session
    fails with "No version of SSH protocol usable", also when SSHv1 is
    allowed.  For a banner that starts with "SSH-1" the byte at offset 6
    of the memory decides, and for a banner of fewer than 7 bytes this is
    its terminating NUL or the byte that lies behind it: when the byte is
    not '9', the version is 1 if SSHv1 is allowed locally, whether SSHv2
    is allowed or not, and the session fails in the same way if it is
    not; when the byte is '9', the version is 2 if SSHv2 is allowed, and 1
    if only SSHv1 is.  So for the five-byte banner "SSH-1" a '9' behind
    the NUL makes the client choose version 2. *)
Theorem connection_callback_version_choice :
  (∀ s rest,
     session_state s = SSH_SESSION_STATE_BANNER_RECEIVED →
     serverbanner s = Some (chars "SSH-2" ++ rest) →
     let s' := connection_callback X s in
     (ssh2 s ≠ 0 →
        version s' = 2
        ∧ session_state s' = SSH_SESSION_STATE_INITIAL_KEX)
     ∧ (ssh2 s = 0 →
        session_state s' = SSH_SESSION_STATE_ERROR
        ∧ error s' = Some (No_version_usable (chars "SSH-2" ++ rest))
        ∧ version s' = version s))
  ∧ (∀ s rest,
       session_state s = SSH_SESSION_STATE_BANNER_RECEIVED →
       serverbanner s = Some (chars "SSH-1" ++ rest) →
       let byte6 :=
         char_at ((chars "SSH-1" ++ rest)
                    ++ NUL :: bytes_past_nul X (ext s)) 6 in
       let s' := connection_callback X s in
       (byte6 ≠ "9"%char →
          (ssh1 s ≠ 0 →
             version s' = 1
             ∧ session_state s' = SSH_SESSION_STATE_INITIAL_KEX)
          ∧ (ssh1 s = 0 →
             session_state s' = SSH_SESSION_STATE_ERROR
             ∧ error s' = Some (No_version_usable (chars "SSH-1" ++ rest))
             ∧ version s' = version s))
       ∧ (byte6 = "9"%char →
          (ssh2 s ≠ 0 →
             version s' = 2
             ∧ session_state s' = SSH_SESSION_STATE_INITIAL_KEX)
          ∧ (ssh2 s = 0 → ssh1 s ≠ 0 →
             version s' = 1
             ∧ session_state s' = SSH_SESSION_STATE_INITIAL_KEX)))
  ∧ (∀ s past,
       session_state s = SSH_SESSION_STATE_BANNER_RECEIVED →
       serverbanner s = Some (chars "SSH-1") →
       bytes_past_nul X (ext s) = "9"%char :: past →
       ssh2 s ≠ 0 →
       let s' := connection_callback X s in
       version s' = 2
       ∧ session_state s' = SSH_SESSION_STATE_INITIAL_KEX).
Proof.
  assert (Hone : ∀ s rest,
    session_state s = SSH_SESSION_STATE_BANNER_RECEIVED →
    serverbanner s = Some (chars "SSH-1" ++ rest) →
    let byte6 :=
      char_at ((chars "SSH-1" ++ rest)
                 ++ NUL :: bytes_past_nul X (ext s)) 6 in
    let s' := connection_callback X s in
    (byte6 ≠ "9"%char →
       (ssh1 s ≠ 0 →
          version s' = 1
          ∧ session_state s' = SSH_SESSION_STATE_INITIAL_KEX)
       ∧ (ssh1 s = 0 →
          session_state s' = SSH_SESSION_STATE_ERROR
          ∧ error s' = Some (No_version_usable (chars "SSH-1" ++ rest))
          ∧ version s' = version s))
    ∧ (byte6 = "9"%char →
       (ssh2 s ≠ 0 →
          version s' = 2
          ∧ session_state s' = SSH_SESSION_STATE_INITIAL_KEX)
       ∧ (ssh2 s = 0 → ssh1 s ≠ 0 →
          version s' = 1
          ∧ session_state s' = SSH_SESSION_STATE_INITIAL_KEX))).
  { intros s rest Hst Hb byte6 s'. subst s'.
    pose proof (connection_callback_banner_received s _ Hst Hb) as H.
    destruct (ssh_analyze_banner_1 s rest 0 0 Hb) as [v Ha].
    cbv zeta in Ha. fold byte6 in Ha. rewrite Ha in H.
    cbn [Z.ltb Z.compare] in H. cbn zeta in H. destruct H as [H _].
    split.
    - intros Hc%Ascii.eqb_neq. rewrite Hc in H.
      cbn [Z.eqb negb andb] in H. split.
      + intros H1%Z.eqb_neq. rewrite H1 in H. cbn [negb] in H.
        by destruct H as (? & ? & _).
      + intros H1. rewrite H1 in H. cbn [Z.eqb negb] in H.
        by destruct H as (? & ? & _ & _ & _ & ? & _).
    - intros Hc. rewrite Hc, Ascii.eqb_refl in H.
      cbn [Z.eqb Pos.eqb negb andb] in H. split.
      + intros H2%Z.eqb_neq. rewrite H2 in H. cbn [negb] in H.
        by destruct H as (? & ? & _).
      + intros H2 H1%Z.eqb_neq. rewrite H2, H1 in H.
        cbn [Z.eqb negb andb] in H.
        by destruct H as (? & ? & _). }
  split; [|split].
  - intros s rest Hst Hb.
    pose proof (connection_callback_banner_received s _ Hst Hb) as H.
    destruct (ssh_analyze_banner_2 s rest 0 0 Hb) as [v Ha].
    rewrite Ha in H. cbn [Z.ltb Z.compare Z.eqb negb andb] in H.
    cbn zeta in H. destruct H as [H _]. split.
    + intros H2%Z.eqb_neq. rewrite H2 in H. cbn [negb] in H.
      by destruct H as (? & ? & _).
    + intros H2. rewrite H2 in H. cbn [Z.eqb negb] in H.
      by destruct H as (? & ? & _ & _ & _ & ? & _).
  - exact Hone.
  - intros s past Hst Hb Hpast H2.
    change (chars "SSH-1") with (chars "SSH-1" ++ []) in Hb.
    destruct (Hone s [] Hst Hb) as [_ Hnine].
    apply Hnine; [|done]. by rewrite Hpast.
Qed.

(** ** The socket callbacks *)

(** X13. What the two socket callbacks leave behind.  A successful
    connect puts the session in [SOCKET_CONNECTED] and changes nothing
    else.  A failed connect and a socket exception put it in [ERROR]; the
    message they record, "Connection failed" or "Socket error", is
    overwritten at once by the "Invalid state" of [connection_callback],
    which has no case for [ERROR]; [alive] is not cleared and the socket
    is not closed. *)
Theorem socket_callbacks_outcome code os_errno s :
  socket_callback_exception X code os_errno s
  = ssh_set_error (Invalid_state SSH_SESSION_STATE_ERROR)
      (set_session_state SSH_SESSION_STATE_ERROR s)
  ∧ (code ≠ SSH_SOCKET_CONNECTED_OK X →
     socket_callback_connected X code os_errno s
     = ssh_set_error (Invalid_state SSH_SESSION_STATE_ERROR)
         (set_session_state SSH_SESSION_STATE_ERROR s))
  ∧ (code = SSH_SOCKET_CONNECTED_OK X →
     socket_callback_connected X code os_errno s
     = set_session_state SSH_SESSION_STATE_SOCKET_CONNECTED s).
Proof.
  split; [done|]. unfold socket_callback_connected. split.
  - intros Hc%Z.eqb_neq. by rewrite Hc.
  - intros ->. by rewrite Z.eqb_refl.
Qed.

(** ** [ssh_connect]: what the drive loop keeps *)

Lemma connection_callback_client s :
  client (connection_callback X s) = client s.
Proof.
  destruct (session_state s) eqn:Hst.
  1-3, 6-7: unfold connection_callback; by rewrite Hst.
  - destruct (serverbanner s) as [banner|] eqn:Hb.
    + pose proof (connection_callback_banner_received s banner Hst Hb) as H.
      destruct (ssh_analyze_banner X s 0 0) as [[[rc f1] f2] sa].
      by destruct H as (_ & _ & ? & _).
    + unfold connection_callback, connection_callback_error.
      rewrite Hst, Hb. by fields.
  - by destruct (connection_callback_initial_kex s Hst)
      as (_ & _ & _ & _ & _ & ? & _).
Qed.

Ltac inv_closed :=
  split; [by intros []|split; [by intros [?|?]|done]].

Ltac inv_fresh :=
  split; [done|split; [by intros _|split; [by intros [?|?]|done]]].

Lemma connection_callback_inv s :
  connect_inv s → connect_inv (connection_callback X s).
Proof.
  intros (Hcl & Hal & Hver & Hcon).
  split; [by rewrite connection_callback_client|].
  destruct (session_state s) eqn:Hst.
  1-3, 6:
    assert (Hsame : connection_callback X s = s)
      by (unfold connection_callback; by rewrite Hst);
    by rewrite Hsame, Hst.
  - destruct (serverbanner s) as [banner|] eqn:Hb.
    + pose proof (connection_callback_banner_received s banner Hst Hb) as H.
      destruct (ssh_analyze_banner X s 0 0) as [[[rc f1] f2] sa].
      cbn zeta in H. destruct H as (H & Hsb & _).
      assert (Hgo : ∀ v, v = 1 ∨ v = 2 →
                session_state (connection_callback X s)
                = SSH_SESSION_STATE_INITIAL_KEX →
                version (connection_callback X s) = v →
                alive (connection_callback X s) = alive s →
                (session_state (connection_callback X s)
                 ≠ SSH_SESSION_STATE_ERROR →
                 alive (connection_callback X s) = 1)
                ∧ (session_state (connection_callback X s)
                   = SSH_SESSION_STATE_INITIAL_KEX
                   ∨ session_state (connection_callback X s)
                     = SSH_SESSION_STATE_AUTHENTICATING →
                   (version (connection_callback X s) = 1
                    ∨ version (connection_callback X s) = 2)
                   ∧ is_Some (serverbanner (connection_callback X s)))
                ∧ (session_state (connection_callback X s)
                   = SSH_SESSION_STATE_AUTHENTICATING →
                   connected (connection_callback X s) = 1)).
      { intros v Hv Hs' Hv' Ha'. rewrite Hs', Ha', Hv', Hsb.
        split; [intros _; apply Hal; discriminate|done]. }
      destruct (rc <? 0);
        [destruct H as (Hs' & _); rewrite Hs'; inv_closed|].
      destruct (negb (f2 =? 0) && negb (ssh2 s =? 0)).
      { destruct H as (? & ? & _ & _ & ? & _). apply (Hgo 2); auto. }
      destruct (negb (f1 =? 0) && negb (ssh1 s =? 0)).
      { destruct H as (? & ? & _ & _ & ? & _). apply (Hgo 1); auto. }
      destruct H as (Hs' & _). rewrite Hs'. inv_closed.
    + unfold connection_callback, connection_callback_error.
      rewrite Hst, Hb. fields. inv_closed.
  - destruct (connection_callback_initial_kex s Hst)
      as (Hend & _ & Hv' & Hsb & _).
    destruct (Hver (or_introl eq_refl)) as [Hv Hsome].
    destruct Hend as [(Hs' & Ha' & Hc')|[Hs' _]].
    + rewrite Hs', Ha', Hv', Hsb.
      split; [intros _; apply Hal; discriminate|].
      split; [done|]. intros _. by apply Hc'.
    + rewrite Hs'. inv_closed.
  - unfold connection_callback. rewrite Hst.
    unfold ssh_set_error. fields. rewrite Hst. inv_closed.
Qed.

(** The three ways in which the banner reader ends. *)
Lemma receive_banner_loop_cases rest :
  ∀ before i s,
    ∃ ret buffer,
      receive_banner_loop X before rest i s = (ret, buffer, s)
      ∨ receive_banner_loop X before rest i s
        = (ret, buffer,
           ssh_set_error Too_large_banner
             (set_session_state SSH_SESSION_STATE_ERROR s))
      ∨ ∃ str e,
          receive_banner_loop X before rest i s
          = (ret, buffer,
             connection_callback X
               (set_session_state SSH_SESSION_STATE_BANNER_RECEIVED
                  (set_serverbanner str (set_ext e s)))).
Proof.
  induction rest as [|c rest IH]; intros before i s;
    cbn [receive_banner_loop].
  - eexists _, _. by left.
  - destruct (Ascii.eqb _ LF).
    + unfold strdup. rewrite ext_rc_eq. cbn [fst snd].
      eexists _, _. right; right. by eexists _, _.
    + destruct (127 <? i)%nat; [|apply IH].
      eexists _, _. right; by left.
Qed.

Lemma connect_inv_ext e s : connect_inv s → connect_inv (set_ext e s).
Proof. done. Qed.

Lemma ssh_handle_packets_inv s :
  connect_inv s → connect_loop_done s = false →
  connect_inv (ssh_handle_packets X s).
Proof.
  intros Hinv Hdone.
  assert (Hne : session_state s ≠ SSH_SESSION_STATE_ERROR).
  { intros Heq. unfold connect_loop_done in Hdone. rewrite Heq in Hdone.
    by rewrite bool_decide_eq_true_2 in Hdone. }
  pose proof Hinv as (Hcl & Hal & _).
  pose proof (Hal Hne) as Halive.
  unfold ssh_handle_packets. rewrite ext_rc_eq.
  destruct (ssh_socket_poll X (ext s)) as [[[code en|code en|data]|] e];
    cbn [fst snd]; [| | |done].
  - fields. destruct (cb_connected (socket_callbacks s)); [|done].
    unfold socket_callback_connected. apply connection_callback_inv.
    destruct (code =? SSH_SOCKET_CONNECTED_OK X);
      unfold connect_inv, ssh_set_error; fields.
    + inv_fresh.
    + split; [done|inv_closed].
  - fields. destruct (cb_exception (socket_callbacks s)); [|done].
    unfold socket_callback_exception. apply connection_callback_inv.
    unfold connect_inv, ssh_set_error; fields.
    split; [done|inv_closed].
  - fields. destruct (cb_data (socket_callbacks s)) as [[]|]; [| |done].
    + unfold callback_receive_banner.
      destruct (receive_banner_loop_cases data [] 0%nat (set_ext e s))
        as (ret & buffer & [->|[->|(str & e' & ->)]]); unfold ext_do.
      * done.
      * unfold connect_inv, ssh_set_error; fields.
        split; [done|inv_closed].
      * apply connect_inv_ext, connection_callback_inv.
        unfold connect_inv; fields. inv_fresh.
    + dh_call. unfold ext_do. fields. by apply connection_callback_inv.
Qed.

Lemma ssh_connect_loop_inv fuel :
  ∀ s s', connect_inv s → ssh_connect_loop X fuel s = Some s' →
          connect_inv s'.
Proof.
  induction fuel as [|fuel IH]; intros s s' Hinv; cbn;
    destruct (connect_loop_done s) eqn:Hdone; try done.
  - by intros [= <-].
  - by intros [= <-].
  - apply IH. by apply ssh_handle_packets_inv.
Qed.

(** X14. When [ssh_connect] returns 0 with the session in
    [AUTHENTICATING], the session is a live, connected client, version 1
    or 2 has been chosen and the banner of the server is stored. *)
Theorem ssh_connect_authenticating fuel s s' :
  ssh_connect X fuel (Some s) = Some (0, Some s') →
  session_state s' = SSH_SESSION_STATE_AUTHENTICATING →
  alive s' = 1 ∧ client s' = 1 ∧ connected s' = 1
  ∧ (version s' = 1 ∨ version s' = 2)
  ∧ is_Some (serverbanner s').
Proof.
  assert (Hend : ∀ s0 s1,
            connect_inv s0 → ssh_connect_loop X fuel s0 = Some s1 →
            session_state s1 = SSH_SESSION_STATE_AUTHENTICATING →
            alive s1 = 1 ∧ client s1 = 1 ∧ connected s1 = 1
            ∧ (version s1 = 1 ∨ version s1 = 2)
            ∧ is_Some (serverbanner s1)).
  { intros s0 s1 Hinv Hloop Hauth.
    destruct (ssh_connect_loop_inv fuel s0 s1 Hinv Hloop)
      as (? & Hal & Hver & Hcon).
    destruct Hver as [? ?]; [by right|].
    split; [apply Hal; congruence|]. split; [done|].
    split; [by apply Hcon|done]. }
  unfold ssh_connect. dh_call. dh_branch; [done|].
  dh_branch; [done|]. fields.
  destruct (negb (fd s =? -1)).
  - cbn [negb Z.eqb SSH_OK]. unfold ext_do at 1. fields.
    match goal with |- context [ssh_connect_loop X fuel ?s0] =>
      destruct (ssh_connect_loop X fuel s0) as [s1|] eqn:Hloop end; [|done].
    intros [= <-]. eapply Hend; [|exact Hloop].
    rewrite set_status_log_eq. unfold connect_inv, ext_do; fields. inv_fresh.
  - dh_call. dh_branch; [done|].
    match goal with |- context [ssh_connect_loop X fuel ?s0] =>
      destruct (ssh_connect_loop X fuel s0) as [s1|] eqn:Hloop end; [|done].
    intros [= <-]. eapply Hend; [|exact Hloop].
    rewrite set_status_log_eq. unfold connect_inv, ext_do; fields. inv_fresh.
Qed.

(** X15. The refusals of [ssh_connect].  When [ssh_init] fails, when
    there is neither a descriptor nor a host name, or when the socket
    cannot be connected, [ssh_connect] returns [SSH_ERROR] without
    entering the drive loop, whatever the number of rounds allowed: the
    session is a client that is not alive, the progress callback has
    heard nothing and no banner, version or key exchange state has
    changed.  Without a host name the error is "Hostname required" and
    the state of the session is as before; after a failed connect the
    session is left in [CONNECTING], with its callbacks bound. *)
Theorem ssh_connect_refuses fuel s :
  let init := ssh_init X (ext s) in
  let conn :=
    ssh_socket_connect X (host s) (port s) (bindaddr s)
      (ssh_socket_set_callbacks X init.2) in
  init.1 < 0
  ∨ (fd s = -1 ∧ host s = None)
  ∨ (fd s = -1 ∧ conn.1 ≠ SSH_OK) →
  ∃ s',
    ssh_connect X fuel (Some s) = Some (SSH_ERROR, Some s')
    ∧ alive s' = 0 ∧ client s' = 1
    ∧ status_log s' = status_log s
    ∧ serverbanner s' = serverbanner s ∧ version s' = version s
    ∧ dh_handshake_state s' = dh_handshake_state s
    ∧ strings s' = strings s ∧ cryptos s' = cryptos s
    ∧ (0 ≤ init.1 → host s = None →
       error s' = Some Hostname_required
       ∧ session_state s' = session_state s
       ∧ socket_callbacks s' = socket_callbacks s)
    ∧ (0 ≤ init.1 → host s ≠ None →
       session_state s' = SSH_SESSION_STATE_CONNECTING
       ∧ cb_data (socket_callbacks s') = Some Data_callback_receive_banner
       ∧ error s' = error s).
Proof.
  intros init conn Hwhy. subst init conn. unfold ssh_connect.
  rewrite ext_rc_eq. fields. destruct (ssh_init X (ext s)) as [r e].
  cbn [fst snd] in *.
  destruct (r <? 0) eqn:Hr.
  { apply Z.ltb_lt in Hr. eexists. split; [done|]. fields.
    repeat split; try done; lia. }
  apply Z.ltb_ge in Hr.
  destruct Hwhy as [?|[[Hfd Hhost]|[Hfd Hconn]]]; [lia| |].
  - rewrite Hfd, Hhost. cbn [Z.eqb Pos.eqb andb].
    rewrite bool_decide_eq_true_2 by done.
    eexists. split; [done|]. fields. by repeat split.
  - rewrite Hfd. cbn [Z.eqb Pos.eqb andb negb].
    destruct (bool_decide (host s = None)) eqn:Hhost.
    + apply bool_decide_eq_true in Hhost.
      eexists. split; [done|]. fields. by repeat split.
    + apply bool_decide_eq_false in Hhost.
      rewrite ext_rc_eq. fields.
      destruct (ssh_socket_connect X (host s) (port s) (bindaddr s)
                  (ssh_socket_set_callbacks X e)) as [ret e'].
      cbn [fst snd] in *.
      apply Z.eqb_neq in Hconn. rewrite Hconn. cbn [negb].
      eexists. split; [done|]. fields. by repeat split.
Qed.

(** X16. What [ssh_connect] can return for a session that is not NULL.
    The session is a client afterwards, and the result is either
    [SSH_ERROR], with [alive] cleared and the session not past
    [CONNECTING], or 0 with the session in [ERROR] or in
    [AUTHENTICATING]: the 0 does not tell the two apart.  (No result at
    all stands for a drive loop that has not come to an end within
    [fuel] rounds.) *)
Theorem ssh_connect_outcomes fuel s :
  match ssh_connect X fuel (Some s) with
  | None => True
  | Some (_, None) => False
  | Some (r, Some s') =>
      client s' = 1
      ∧ ((r = SSH_ERROR ∧ alive s' = 0
          ∧ (session_state s' = session_state s
             ∨ session_state s' = SSH_SESSION_STATE_CONNECTING))
         ∨ (r = 0
            ∧ (session_state s' = SSH_SESSION_STATE_ERROR
               ∨ (session_state s' = SSH_SESSION_STATE_AUTHENTICATING
                  ∧ alive s' = 1))))
  end.
Proof.
  assert (Hend : ∀ s0,
            connect_inv s0 →
            match
              match ssh_connect_loop X fuel s0 with
              | Some s1 => Some (0, Some s1)
              | None => None
              end
            with
            | None => True
            | Some (_, None) => False
            | Some (r, Some s') =>
                client s' = 1
                ∧ ((r = SSH_ERROR ∧ alive s' = 0
                    ∧ (session_state s' = session_state s
                       ∨ session_state s' = SSH_SESSION_STATE_CONNECTING))
                   ∨ (r = 0
                      ∧ (session_state s' = SSH_SESSION_STATE_ERROR
                         ∨ (session_state s'
                            = SSH_SESSION_STATE_AUTHENTICATING
                            ∧ alive s' = 1))))
            end).
  { intros s0 Hinv.
    destruct (ssh_connect_loop X fuel s0) as [s1|] eqn:Hloop; [|done].
    destruct (ssh_connect_loop_inv fuel s0 s1 Hinv Hloop) as (? & Hal & _).
    split; [done|]. right. split; [done|].
    destruct (ssh_connect_loop_ends fuel s0 s1 Hloop) as [?|Hauth];
      [by left|right].
    split; [done|]. apply Hal. congruence. }
  unfold ssh_connect. dh_call.
  dh_branch; [fields; split; [done|]; left; auto|].
  dh_branch;
    [unfold ssh_set_error; fields; split; [done|]; left; auto|].
  fields.
  destruct (negb (fd s =? -1)).
  - cbn [negb Z.eqb SSH_OK]. unfold ext_do at 1. fields.
    apply Hend.
    rewrite set_status_log_eq. unfold connect_inv, ext_do; fields. inv_fresh.
  - dh_call. dh_branch; [fields; split; [done|]; left; auto|].
    apply Hend.
    rewrite set_status_log_eq. unfold connect_inv, ext_do; fields. inv_fresh.
Qed.

(** ** [ssh_disconnect] *)

Lemma bye_heap (m : gmap nat string_cell) (d : list ascii) :
  let p := fresh (dom m) in
  let st := <[p := String_freed d]> (<[p := String_live d]> m) in
  (∀ q c, m !! q = Some c → st !! q = Some c)
  ∧ (∀ q, m !! q = None →
          st !! q = None ∨ st !! q = Some (String_freed d)).
Proof.
  intros p st. subst st. rewrite insert_insert_eq.
  pose proof (fresh_not_in m) as Hp. fold p in Hp. split.
  - intros q c Hq. rewrite lookup_insert_ne; [done|]. congruence.
  - intros q Hq. destruct (decide (p = q)) as [->|Hne].
    + right. by rewrite lookup_insert_eq.
    + left. by rewrite lookup_insert_ne.
Qed.

Ltac bye_exit s :=
  match goal with
  | |- ∃ _ _ _, Some (set_ext ?e _) = _ ∧ _ =>
      exists (alive s), (strings s), e
  end;
  split; [by destruct s|split; [by auto|split; [done|split; by auto]]].

(** X17. [ssh_disconnect] touches three things: [alive], the heap of
    strings and the collaborators.  Every other field of the session, the
    state, the version, the banners and the crypto contexts among them, is
    as before: the session is not reset to [NONE].  [alive] is cleared or,
    on an exit through the label error, kept.  With the socket closed
    nothing but [alive] changes.  The strings that existed are untouched,
    and the one string the function makes, "Bye Bye", is released on
    every path, without being wiped. *)
Theorem ssh_disconnect_effects s :
  ∃ a st e,
    ssh_disconnect X (Some s)
    = Some (set_alive a (set_strings st (set_ext e s)))
    ∧ (a = 0 ∨ (a = alive s ∧ ssh_socket_is_open X (ext s) = true))
    ∧ (ssh_socket_is_open X (ext s) = false → st = strings s ∧ e = ext s)
    ∧ (∀ p c, strings s !! p = Some c → st !! p = Some c)
    ∧ (∀ p, strings s !! p = None →
            st !! p = None
            ∨ st !! p = Some (String_freed (chars "Bye Bye"))).
Proof.
  unfold ssh_disconnect.
  destruct (ssh_socket_is_open X (ext s)) eqn:Hopen.
  2: { exists 0, (strings s), (ext s). split; [by destruct s|]. by auto. }
  dh_call. dh_branch; [bye_exit s|].
  dh_call. dh_branch; [bye_exit s|].
  unfold string_from_char. dh_call. destruct r1; [|bye_exit s].
  unfold string_new. fields. dh_call.
  unfold string_free, string_read. fields. rewrite !lookup_insert_eq.
  destruct (bye_heap (strings s) (chars "Bye Bye")) as [Hold Hnew].
  dh_branch.
  - match goal with
    | |- ∃ _ _ _, Some (set_strings ?st (set_ext ?e _)) = _ ∧ _ =>
        exists (alive s), st, e
    end.
    split; [by destruct s|].
    split; [by auto|]. split; [done|]. split; [exact Hold|exact Hnew].
  - fields. dh_call. fields.
    match goal with
    | |- ∃ _ _ _, Some (set_alive 0 (ext_do _ (set_ext ?e
                                                 (set_strings ?st _))))
                  = _ ∧ _ =>
        exists 0, st, (ssh_socket_close X e)
    end.
    split; [by destruct s|].
    split; [by auto|]. split; [done|]. split; [exact Hold|exact Hnew].
Qed.

(** ** C7: the verification of the host signature fails *)

(** *** No run swaps the crypto contexts *)









(** *** The run that reaches the verification *)














End Properties.

(** * The properties on concrete runs *)

Lemma no_LF_check (l : list ascii) :
  forallb (λ c, negb (Ascii.eqb c LF)) l = true → LF ∉ l.
Proof.
  induction l as [|c l IH]; cbn; [intros _; apply not_elem_of_nil|].
  intros [Hc Hl]%andb_prop. apply not_elem_of_cons. split; [|by apply IH].
  intros <-. by rewrite Ascii.eqb_refl in Hc.
Qed.

(** ** C1 *)

(** C1 fails on the code.  The session is on the descriptor 3 and the first
    thing the socket reports is an exception: the drive loop ends with the
    session in [ERROR], and [ssh_connect] returns 0, which is [SSH_OK]. *)
Theorem ssh_connect_returns_0_in_error :
  let s := new_session [Socket_exception 2 104] in
  match ssh_connect (test_double all_fine) 1 (Some s) with
  | Some (rc, Some s') =>
      rc = 0 ∧ session_state s' = SSH_SESSION_STATE_ERROR
  | _ => False
  end.
Proof. vm_compute. done. Qed.

(** ** C2 *)

(** C2 fails on the code: 128 bytes without a line feed are not an error.
    The callback returns 0 and the session is as before, not in [ERROR]
    and with no error recorded. *)
Lemma banner_of_128_bytes_is_not_too_large :
  let data := repeat "a"%char 128 in
  let run :=
    callback_receive_banner (test_double all_fine) data
      session_awaiting_banner in
  length data = 128%nat ∧ (LF ∉ data)
  ∧ run.1.1 = 0
  ∧ session_state run.2 = SSH_SESSION_STATE_SOCKET_CONNECTED
  ∧ session_state run.2 ≠ SSH_SESSION_STATE_ERROR
  ∧ error run.2 = None.
Proof.
  intros data run. split; [reflexivity|].
  split; [by apply no_LF_check|].
  assert (Hst : session_state run.2 = SSH_SESSION_STATE_SOCKET_CONNECTED)
    by (vm_compute; reflexivity).
  split; [vm_compute; reflexivity|]. split; [exact Hst|].
  split; [by rewrite Hst|]. vm_compute; reflexivity.
Qed.

Lemma callback_receive_banner_boundary_witness :
  let T := test_double all_fine in
  let s := session_awaiting_banner in
  let long := repeat "a"%char 129 in
  let full := repeat "a"%char 128 in
  let line := chars "SSH-2.0-OpenSSH_7.4" ++ repeat " "%char 108 in
  ((129 ≤ length long)%nat ∧ (LF ∉ take 129 long)
   ∧ let '(ret, _, s') := callback_receive_banner T long s in
     ret = 0 ∧ session_state s' = SSH_SESSION_STATE_ERROR
     ∧ error s' = Some Too_large_banner)
  ∧ (length full = 128%nat ∧ (LF ∉ full)
     ∧ let '(ret, _, s') := callback_receive_banner T full s in
       ret = 0 ∧ session_state s' = session_state s
       ∧ error s' = error s ∧ s' = s)
  ∧ (length line = 127%nat ∧ (LF ∉ line)
     ∧ let '(ret, _, s') := callback_receive_banner T (line ++ LF :: []) s in
       ret = 128
       ∧ serverbanner s'
         = if (malloc_ok T (ext s)).1
           then Some (c_str (map cr_to_nul line)) else None).
Proof.
  intros T s long full line.
  assert (Hlong : (129 ≤ length long)%nat) by (vm_compute; lia).
  assert (Hno1 : LF ∉ take 129 long)
    by (by apply no_LF_check).
  assert (Hfull : length full = 128%nat) by reflexivity.
  assert (Hno3 : LF ∉ full)
    by (by apply no_LF_check).
  assert (Hline : length line = 127%nat) by reflexivity.
  assert (Hno2 : LF ∉ line)
    by (by apply no_LF_check).
  destruct (callback_receive_banner_boundary T) as (Hlarge & Hexact & Hfits).
  split; [|split].
  - split; [exact Hlong|]. split; [exact Hno1|].
    exact (Hlarge long s Hlong Hno1).
  - split; [exact Hfull|]. split; [exact Hno3|].
    exact (Hexact full s Hfull Hno3).
  - split; [exact Hline|]. split; [exact Hno2|].
    exact (Hfits line [] s Hline Hno2).
Defined.

(** ** C3 *)

Lemma callback_receive_banner_incomplete_witness :
  let data := chars "SSH-2.0-OpenSSH_7.4" in
  let s := session_awaiting_banner in
  (length data ≤ 128)%nat ∧ (LF ∉ data)
  ∧ let '(ret, _, s') :=
      callback_receive_banner (test_double all_fine) data s in
    ret = 0 ∧ session_state s' = session_state s
    ∧ serverbanner s' = serverbanner s ∧ s' = s.
Proof.
  intros data s.
  assert (Hlen : (length data ≤ 128)%nat) by (vm_compute; lia).
  assert (Hno : LF ∉ data) by (by apply no_LF_check).
  split; [exact Hlen|]. split; [exact Hno|].
  exact (callback_receive_banner_incomplete (test_double all_fine)
           data s Hlen Hno).
Defined.

(** ** C4 *)

Lemma banner_1_99_resolves_version_witness :
  let T := test_double all_fine in
  let rest := chars "OpenSSH_3.9p1" in
  let s := session_with_banner (chars "SSH-1.99-" ++ rest) in
  session_state s = SSH_SESSION_STATE_BANNER_RECEIVED
  ∧ serverbanner s = Some (chars "SSH-1.99-" ++ rest)
  ∧ (∀ ssh1 ssh2,
       let '(rc, server_ssh1, server_ssh2, _) :=
         ssh_analyze_banner T s ssh1 ssh2 in
       rc = 0 ∧ server_ssh1 = 1 ∧ server_ssh2 = 1)
  ∧ version (connection_callback T s) = 2.
Proof.
  intros T rest s.
  assert (Hst : session_state s = SSH_SESSION_STATE_BANNER_RECEIVED)
    by reflexivity.
  assert (Hb : serverbanner s = Some (chars "SSH-1.99-" ++ rest))
    by reflexivity.
  split; [exact Hst|]. split; [exact Hb|].
  destruct (banner_1_99_resolves_version T s rest Hst Hb) as [Hflags Hver].
  split; [exact Hflags|].
  apply Hver. discriminate.
Defined.

(** ** C5 *)

(** C5 fails on the code, which does not do what the doc comment of
    [ssh_get_openssh_version] says ("if it is not an OpenSSH server then 0
    will be returned").  On a new session the accessor returns 0 after the
    connection to a server whose banner has no "OpenSSH".  But a session
    that has been connected to "SSH-1.5-OpenSSH_1.2", disconnected with
    [ssh_disconnect] ("the session can then be reused") and connected to
    "SSH-1.5-dropbear_0.52" is in [AUTHENTICATING] with the new banner
    stored, and the accessor still returns 66048, the version 1.2 of the
    server before: [ssh_analyze_banner] writes [session->openssh] only
    when it finds "OpenSSH", and neither [ssh_disconnect] nor
    [ssh_connect] resets it. *)
Theorem ssh_get_openssh_version_stale_after_reuse :
  let T := test_double all_fine in
  let openssh_server :=
    [Socket_connected 1 0;
     Socket_data (chars "SSH-1.5-OpenSSH_1.2" ++ [CR; LF]);
     Socket_data (chars "SMSG_PUBLIC_KEY")] in
  let other_server :=
    [Socket_connected 1 0;
     Socket_data (chars "SSH-1.5-dropbear_0.52" ++ [CR; LF]);
     Socket_data (chars "SMSG_PUBLIC_KEY")] in
  strstr (chars "SSH-1.5-dropbear_0.52") (chars "OpenSSH") = None
  ∧ match ssh_connect T 3 (Some (new_session other_server)) with
    | Some (rc, Some s) =>
        rc = 0
        ∧ session_state s = SSH_SESSION_STATE_AUTHENTICATING
        ∧ serverbanner s = Some (chars "SSH-1.5-dropbear_0.52")
        ∧ (ssh_get_openssh_version (Some s)).1 = 0
    | _ => False
    end
  ∧ match
      ssh_connect T 3 (Some (new_session (openssh_server ++ other_server)))
    with
    | Some (_, Some s1) =>
        (ssh_get_openssh_version (Some s1)).1 = SSH_VERSION_INT 1 2 0
        ∧ match ssh_disconnect T (Some s1) with
          | Some s2 =>
              alive s2 = 0
              ∧ match ssh_connect T 3 (Some s2) with
                | Some (rc, Some s3) =>
                    rc = 0
                    ∧ session_state s3 = SSH_SESSION_STATE_AUTHENTICATING
                    ∧ serverbanner s3
                      = Some (chars "SSH-1.5-dropbear_0.52")
                    ∧ (ssh_get_openssh_version (Some s3)).1 = 66048
                    ∧ (ssh_get_openssh_version (Some s3)).1 ≠ 0
                | _ => False
                end
          | None => False
          end
    | _ => False
    end.
Proof. vm_compute. repeat split; done. Qed.

(** The two fields are not limited to one digit.  For
    "SSH-2.0-OpenSSH_7.10" the analysis stores 0x070A00: the minor number
    is 10, the two digits that stand at offset +10, where one-digit fields
    give 0x070100. *)
Lemma openssh_7_10_minor_is_not_one_digit :
  let banner := chars "SSH-2.0-OpenSSH_7.10" in
  let '(rc, _, _, s') :=
    ssh_analyze_banner (test_double all_fine) (session_with_banner banner)
      0 0 in
  rc = 0
  ∧ (ssh_get_openssh_version (Some s')).1 = 461312
  ∧ openssh_version_one_digit_fields banner = 459008
  ∧ (ssh_get_openssh_version (Some s')).1
    ≠ openssh_version_one_digit_fields banner.
Proof. vm_compute. repeat split; done. Qed.

Lemma ssh_analyze_banner_openssh_version_witness :
  let T := test_double all_fine in
  let banner := chars "SSH-2.0-OpenSSH_7.4" in
  let s := session_with_banner banner in
  serverbanner s = Some banner
  ∧ strstr banner (chars "OpenSSH") = Some 8%nat
  ∧ (ssh_get_openssh_version
       (Some (ssh_analyze_banner T s 0 0).2)).1 = 459776.
Proof.
  intros T banner s.
  assert (Hb : serverbanner s = Some banner) by reflexivity.
  assert (Hk : strstr banner (chars "OpenSSH") = Some 8%nat) by reflexivity.
  split; [exact Hb|]. split; [exact Hk|].
  pose proof (ssh_analyze_banner_openssh_version T s banner 0 0 Hb) as H.
  cbv zeta in H.
  destruct (ssh_analyze_banner T s 0 0) as [[[rc f1] f2] s'] eqn:Hrun.
  destruct H as (_ & Hdigits & _).
  assert (Hrc : rc = 0) by (vm_compute in Hrun; congruence).
  cbn [snd].
  rewrite (Hdigits 8%nat 7 4 Hrc Hk); reflexivity.
Defined.

(** ** C6 *)

Lemma dh_handshake_finished_swaps_crypto_witness :
  let T := test_double all_fine in
  let s := session_in_kex DH_STATE_INIT in
  let run := dh_handshake T s in
  dh_handshake_state s ≠ DH_STATE_FINISHED
  ∧ dh_handshake_state run.2 = DH_STATE_FINISHED
  ∧ run.1 = SSH_OK
  ∧ current_crypto run.2 = Some 0%nat
  ∧ cryptos run.2 !! 1%nat = Some Crypto_freed
  ∧ ∃ q, next_crypto run.2 = Some q
         ∧ cryptos s !! q = None
         ∧ cryptos run.2 !! q = Some Crypto_live
         ∧ crypto_mem (ext run.2) q = 0.
Proof.
  intros T s run.
  assert (Hst : dh_handshake_state s ≠ DH_STATE_FINISHED) by discriminate.
  assert (Hfin : dh_handshake_state run.2 = DH_STATE_FINISHED)
    by (vm_compute; reflexivity).
  split; [exact Hst|]. split; [exact Hfin|].
  destruct (dh_handshake_finished_swaps_crypto T s run.1 run.2
              (surjective_pairing run) Hst Hfin)
    as (Hrc & Hcur & Hfreed & Hnew).
  split; [exact Hrc|]. split; [exact Hcur|].
  split; [exact (Hfreed 1%nat eq_refl)|]. exact Hnew.
Defined.

(** ** C7 *)


(** ** C8 *)

(** C8 fails on the code.  The handshake is in [DH_STATE_INIT_SENT]; the
    reply holds the key, f and the signature, and [dh_build_k] fails.  The
    three strings are the objects 0, 1 and 2, none of which existed before.
    After the error exit the signature is released, zero-wiped, and
    [session->dh_server_signature] still points to it. *)
Theorem dh_handshake_error_keeps_signature_pointer :
  let s := session_in_kex DH_STATE_INIT_SENT in
  let '(rc, s') := dh_handshake (test_double build_k_fails) s in
  rc = SSH_ERROR
  ∧ strings s !! 2%nat = None
  ∧ dh_server_signature s = None
  ∧ dh_server_signature s' = Some 2%nat
  ∧ strings s' !! 2%nat = Some (String_freed (zeros 4))
  ∧ strings s' !! 0%nat = Some (String_freed (zeros 4))
  ∧ strings s' !! 1%nat = Some (String_freed (zeros 4)).
Proof. vm_compute. repeat split; done. Qed.

(** ** C9 *)

(** C9 fails on the code.  The socket is open and the first append to the
    output buffer fails: [ssh_disconnect] leaves through the label [error],
    which stands behind [session->alive = 0], and [alive] is still 1. *)
Theorem ssh_disconnect_keeps_alive_on_error :
  let T := test_double add_u8_fails in
  let s := session_awaiting_banner in
  alive s = 1
  ∧ ssh_socket_is_open T (ext s) = true
  ∧ (alive <$> ssh_disconnect T (Some s)) = Some 1.
Proof. vm_compute. repeat split; done. Qed.

(** ** Further properties on concrete runs *)

Lemma not_in_check (c : ascii) (l : list ascii) :
  forallb (λ x, negb (Ascii.eqb x c)) l = true → c ∉ l.
Proof.
  induction l as [|x l IH]; cbn; [intros _; apply not_elem_of_nil|].
  intros [Hx Hl]%andb_prop. apply not_elem_of_cons. split; [|by apply IH].
  intros <-. by rewrite Ascii.eqb_refl in Hx.
Qed.

Lemma callback_receive_banner_line_witness :
  let T := test_double all_fine in
  let s := session_awaiting_banner in
  let line := chars "SSH-2.0-OpenSSH_7.4" ++ [CR] in
  let rest := chars "more" in
  (length line ≤ 128)%nat ∧ (LF ∉ line)
  ∧ let '(ret, buffer, s') :=
      callback_receive_banner T (line ++ LF :: rest) s in
    ret = Z.of_nat (length line) + 1
    ∧ buffer = map cr_to_nul line ++ NUL :: rest
    ∧ match serverbanner s' with
      | Some b =>
          b = c_str (map cr_to_nul line)
          ∧ (length b ≤ 128)%nat ∧ (NUL ∉ b) ∧ (CR ∉ b) ∧ (LF ∉ b)
      | None =>
          (malloc_ok T (ext s)).1 = false
          ∧ session_state s' = SSH_SESSION_STATE_ERROR
      end.
Proof.
  intros T s line rest.
  assert (Hlen : (length line ≤ 128)%nat) by (vm_compute; lia).
  assert (Hno : LF ∉ line) by (by apply not_in_check).
  split; [exact Hlen|]. split; [exact Hno|].
  exact (callback_receive_banner_line T line rest s Hlen Hno).
Defined.

Lemma banner_round_trip_witness :
  let T := test_double all_fine in
  let s := session_with_banner (chars "SSH-2.0-OpenSSH_7.4") in
  let peer := session_awaiting_banner in
  let b := chosen_banner T s in
  b = chars "SSH-2.0-libssh-0.4.0"
  ∧ (NUL ∉ b) ∧ (CR ∉ b) ∧ (LF ∉ b) ∧ (length b ≤ 125)%nat
  ∧ malloc_ok T (ext s) = (true, ext s)
  ∧ (malloc_ok T (ext peer)).1 = true
  ∧ (ssh_send_banner T s 0).1 = 0
  ∧ clientbanner (ssh_send_banner T s 0).2 = Some b
  ∧ let '(ret, _, peer') :=
      callback_receive_banner T (b ++ [CR; LF]) peer in
    ret = Z.of_nat (length b) + 2 ∧ serverbanner peer' = Some b.
Proof.
  intros T s peer b.
  assert (Hnul : NUL ∉ b) by (by apply not_in_check).
  assert (Hcr : CR ∉ b) by (by apply not_in_check).
  assert (Hlf : LF ∉ b) by (by apply not_in_check).
  assert (Hlen : (length b ≤ 125)%nat) by (vm_compute; lia).
  assert (Hm : malloc_ok T (ext s) = (true, ext s)) by reflexivity.
  assert (Hpeer : (malloc_ok T (ext peer)).1 = true) by reflexivity.
  split; [reflexivity|].
  split; [exact Hnul|]. split; [exact Hcr|]. split; [exact Hlf|].
  split; [exact Hlen|]. split; [exact Hm|]. split; [exact Hpeer|].
  destruct (banner_round_trip T s (ext s) peer Hnul Hcr Hlf Hlen Hm Hpeer)
    as [Hsend Hrecv].
  split; [by rewrite Hsend|]. split; [by rewrite Hsend|]. exact Hrecv.
Defined.

Lemma ssh_send_banner_truncates_witness :
  let T := test_double all_fine in
  let s := session_with_xbanner (chars "SSH-2.0-" ++ repeat "x"%char 120) in
  let b := chosen_banner T s in
  let line := take 127 (b ++ [CR]) in
  (NUL ∉ b) ∧ (LF ∉ b) ∧ (126 ≤ length b)%nat
  ∧ malloc_ok T (ext s) = (true, ext s)
  ∧ clientbanner (ssh_send_banner T s 0).2 = Some b
  ∧ length line = 127%nat ∧ (LF ∉ line).
Proof.
  intros T s b line.
  assert (Hnul : NUL ∉ b) by (by apply not_in_check).
  assert (Hlf : LF ∉ b) by (by apply not_in_check).
  assert (Hlen : (126 ≤ length b)%nat) by (vm_compute; lia).
  assert (Hm : malloc_ok T (ext s) = (true, ext s)) by reflexivity.
  split; [exact Hnul|]. split; [exact Hlf|]. split; [exact Hlen|].
  split; [exact Hm|].
  destruct (ssh_send_banner_truncates T s (ext s) Hnul Hlf Hlen Hm)
    as (Hsend & Hline & Hno).
  split; [by rewrite Hsend|]. split; [exact Hline|exact Hno].
Defined.

Lemma dh_handshake_error_releases_strings_witness :
  let T := test_double build_k_fails in
  let s := session_in_kex DH_STATE_INIT_SENT in
  let run := dh_handshake T s in
  run.1 ≠ SSH_OK
  ∧ ∀ p, strings s !! p = None →
         strings run.2 !! p = None
         ∨ ∃ n, strings run.2 !! p = Some (String_freed (zeros n)).
Proof.
  intros T s run.
  assert (Hrc : run.1 ≠ SSH_OK) by (vm_compute; discriminate).
  split; [exact Hrc|].
  exact (dh_handshake_error_releases_strings T s run.1 run.2
           (surjective_pairing run) Hrc).
Defined.

Lemma connection_callback_protocol_mismatch_witness :
  let T := test_double all_fine in
  let s := session_with_banner (chars "hello world") in
  let s' := connection_callback T s in
  strncmp_eq (chars "hello world") (chars "SSH-") 4 = false
  ∧ session_state s' = SSH_SESSION_STATE_ERROR
  ∧ error s' = Some (Protocol_mismatch (chars "hello world"))
  ∧ alive s' = 0
  ∧ clientbanner s' = None
  ∧ status_log s' = [4].
Proof.
  intros T s s'.
  assert (Hno : strncmp_eq (chars "hello world") (chars "SSH-") 4 = false)
    by reflexivity.
  split; [exact Hno|].
  destruct (connection_callback_protocol_mismatch T s (chars "hello world")
              eq_refl eq_refl (or_introl Hno))
    as (Hst & Herr & Hal & _ & Hcb & _ & _ & Hlog).
  split; [exact Hst|]. split; [exact Herr|]. split; [exact Hal|].
  split; [exact Hcb|]. exact Hlog.
Defined.

Lemma connection_callback_version_choice_witness :
  let T := test_double all_fine in
  let T9 := test_double nine_past_nul in
  let s2 := session_with_banner (chars "SSH-2.0-OpenSSH_7.4") in
  let s1 := session_with_banner (chars "SSH-1.5-OpenSSH_1.2") in
  let s0 := session_with_banner (chars "SSH-1") in
  (ssh2 s2 ≠ 0
   ∧ version (connection_callback T s2) = 2
   ∧ session_state (connection_callback T s2)
     = SSH_SESSION_STATE_INITIAL_KEX)
  ∧ (char_at (chars "SSH-1.5-OpenSSH_1.2"
                ++ NUL :: bytes_past_nul T (ext s1)) 6 ≠ "9"%char
     ∧ ssh1 s1 ≠ 0
     ∧ version (connection_callback T s1) = 1
     ∧ session_state (connection_callback T s1)
       = SSH_SESSION_STATE_INITIAL_KEX)
  ∧ (bytes_past_nul T9 (ext s0) = chars "9" ∧ ssh2 s0 ≠ 0
     ∧ version (connection_callback T9 s0) = 2
     ∧ session_state (connection_callback T9 s0)
       = SSH_SESSION_STATE_INITIAL_KEX).
Proof.
  intros T T9 s2 s1 s0.
  assert (H2 : ssh2 s2 ≠ 0) by discriminate.
  assert (H1 : ssh1 s1 ≠ 0) by discriminate.
  assert (H0 : ssh2 s0 ≠ 0) by discriminate.
  assert (Hc : char_at (chars "SSH-1.5-OpenSSH_1.2"
                          ++ NUL :: bytes_past_nul T (ext s1)) 6
               ≠ "9"%char) by discriminate.
  assert (Hpast : bytes_past_nul T9 (ext s0) = chars "9") by reflexivity.
  destruct (connection_callback_version_choice T) as (Hv2 & Hv1 & _).
  destruct (connection_callback_version_choice T9) as (_ & _ & Hshort).
  split; [|split].
  - split; [exact H2|].
    exact (proj1 (Hv2 s2 (chars ".0-OpenSSH_7.4") eq_refl eq_refl) H2).
  - split; [exact Hc|]. split; [exact H1|].
    exact (proj1 (proj1 (Hv1 s1 (chars ".5-OpenSSH_1.2") eq_refl eq_refl)
                    Hc) H1).
  - split; [exact Hpast|]. split; [exact H0|].
    exact (Hshort s0 [] eq_refl eq_refl Hpast H0).
Defined.

Lemma socket_callbacks_outcome_witness :
  let T := test_double all_fine in
  let s := set_alive 1 (new_session []) in
  (0 ≠ SSH_SOCKET_CONNECTED_OK T
   ∧ socket_callback_connected T 0 111 s
     = ssh_set_error (Invalid_state SSH_SESSION_STATE_ERROR)
         (set_session_state SSH_SESSION_STATE_ERROR s))
  ∧ socket_callback_connected T (SSH_SOCKET_CONNECTED_OK T) 0 s
    = set_session_state SSH_SESSION_STATE_SOCKET_CONNECTED s.
Proof.
  intros T s.
  assert (Hne : 0 ≠ SSH_SOCKET_CONNECTED_OK T) by discriminate.
  destruct (socket_callbacks_outcome T 0 111 s) as (_ & Hfail & _).
  destruct (socket_callbacks_outcome T (SSH_SOCKET_CONNECTED_OK T) 0 s)
    as (_ & _ & Hok).
  split; [split; [exact Hne|exact (Hfail Hne)]|exact (Hok eq_refl)].
Defined.

Lemma ssh_connect_authenticating_witness :
  let T := test_double all_fine in
  let s :=
    new_session
      [Socket_connected 1 0;
       Socket_data (chars "SSH-2.0-OpenSSH_7.4" ++ [CR; LF]);
       Socket_data (chars "KEXINIT")] in
  ∃ s',
    ssh_connect T 3 (Some s) = Some (0, Some s')
    ∧ session_state s' = SSH_SESSION_STATE_AUTHENTICATING
    ∧ alive s' = 1 ∧ client s' = 1 ∧ connected s' = 1
    ∧ (version s' = 1 ∨ version s' = 2)
    ∧ is_Some (serverbanner s').
Proof.
  intros T s.
  assert (Hrun : ∃ s', ssh_connect T 3 (Some s) = Some (0, Some s')
                       ∧ session_state s'
                         = SSH_SESSION_STATE_AUTHENTICATING).
  { vm_compute. eexists. split; reflexivity. }
  destruct Hrun as (s' & Hrun & Hauth).
  exists s'. split; [exact Hrun|]. split; [exact Hauth|].
  exact (ssh_connect_authenticating T 3 s s' Hrun Hauth).
Defined.

Lemma ssh_connect_refuses_witness :
  let T := test_double all_fine in
  let s := session_without_descriptor None in
  (fd s = -1 ∧ host s = None)
  ∧ ∃ s',
      ssh_connect T 0 (Some s) = Some (SSH_ERROR, Some s')
      ∧ alive s' = 0 ∧ client s' = 1
      ∧ error s' = Some Hostname_required
      ∧ session_state s' = SSH_SESSION_STATE_NONE.
Proof.
  intros T s.
  assert (Hwhy : fd s = -1 ∧ host s = None) by (split; reflexivity).
  split; [exact Hwhy|].
  destruct (ssh_connect_refuses T 0 s (or_intror (or_introl Hwhy)))
    as (s' & Hrun & Hal & Hcl & _ & _ & _ & _ & _ & _ & Hhost & _).
  exists s'. split; [exact Hrun|]. split; [exact Hal|]. split; [exact Hcl|].
  destruct (Hhost (Z.le_refl 0) eq_refl) as (Herr & Hst & _).
  split; [exact Herr|exact Hst].
Defined.
